(** * Secure Business Manager: the record service of [app.py]

    A shallow embedding of the database helpers of [app.py]
    ([validate_input], [add_record], [update_record_status], [fetch_data])
    and of the three form handlers that call them, together with the part of
    SQLite and of Python's [sqlite3] module that the three [CREATE TABLE]
    statements and the parameterised statements rely on.
    [generate_csv_download] hands the frame to [DataFrame.to_csv] of pandas
    and has no logic of its own; it is not embedded. *)

From Stdlib Require Import ZArith NArith Lia Ascii String.
From Stdlib Require Import Floats.SpecFloat.
From Stdlib Require DecimalString HexadecimalString.
From stdpp Require Import base option list sorting strings.

Local Open Scope Z_scope.

(** ** Python values *)

(** A Python [str] is a sequence of Unicode code points. *)
Abbreviation pystr := (list N).

(** The code points of an ASCII literal of the source. *)
Definition str (s : string) : pystr :=
  N_of_ascii <$> list_ascii_of_string s.

(** [datetime.date]: what [st.date_input] returns. *)
Record pydate := Date { year : N; month : N; day : N }.

(** The Python values that reach the helpers.  [PyTuple] stands for the
    container types: falsy when empty, and no value that [sqlite3] can
    bind.  An [int] is unbounded, a [float] is an IEEE 754 binary64 value. *)
#[warnings="-register-all"] Inductive pyval :=
| PyNone
| PyBool (b : bool)
| PyInt (z : Z)
| PyFloat (f : spec_float)
| PyStr (s : pystr)
| PyDate (d : pydate)
| PyTuple (items : list pyval).

(** The exceptions of the helpers.  [UnicodeEncodeError] is a subclass of
    [ValueError]; it carries the [str] that could not be encoded and the
    positions [start, stop) of the characters at fault. *)
Inductive exn :=
| ValueError (msg : string)
| UnicodeEncodeError (object : pystr) (start stop : nat)
| IntegrityError
| OperationalError
| ProgrammingError
| OverflowError.

Inductive result (A : Type) :=
| Ok (a : A)
| Raise (e : exn).
Arguments Ok {A} a.
Arguments Raise {A} e.

(** ** [str.strip] and truth values *)

(** [Py_UNICODE_ISSPACE]: the characters [str.strip()] removes. *)
Definition is_space (c : N) : bool :=
  ((9 <=? c) && (c <=? 13) || (28 <=? c) && (c <=? 32)
   || (c =? 133) || (c =? 160) || (c =? 5760)
   || (8192 <=? c) && (c <=? 8202)
   || (c =? 8232) || (c =? 8233) || (c =? 8239) || (c =? 8287)
   || (c =? 12288))%N.

Fixpoint lstrip (s : pystr) : pystr :=
  match s with
  | c :: s' => if is_space c then lstrip s' else s
  | [] => []
  end.

Definition rstrip (s : pystr) : pystr := reverse (lstrip (reverse s)).

Definition strip (s : pystr) : pystr := rstrip (lstrip s).

Definition float_zero : spec_float := S754_zero false.

Definition is_nan (f : spec_float) : bool :=
  match f with
  | S754_nan => true
  | _ => false
  end.

(** [bool(value)]. *)
Definition truthy (v : pyval) : bool :=
  match v with
  | PyNone => false
  | PyBool b => b
  | PyInt z => negb (z =? 0)
  | PyFloat f => negb (SFeqb f float_zero)
  | PyStr s => negb (length s =? 0)%nat
  | PyDate _ => true
  | PyTuple items => negb (length items =? 0)%nat
  end.

(** The test of line 76:
    [not value or (isinstance(value, str) and len(value.strip()) == 0)]. *)
Definition is_empty_value (value : pyval) : bool :=
  negb (truthy value)
  || match value with
     | PyStr s => (length (strip s) =? 0)%nat
     | _ => false
     end.

Definition cannot_be_empty (field : string) : string :=
  field +:+ " cannot be empty!".

(** [validate_input]: [kwargs] are the keyword arguments in call order. *)
Fixpoint validate_input (kwargs : list (string * pyval)) : result pyval :=
  match kwargs with
  | [] => Ok PyNone
  | (field, value) :: rest =>
      if is_empty_value value
      then Raise (ValueError (cannot_be_empty field))
      else validate_input rest
  end.

(** ** SQLite values and parameter binding *)

(** The storage classes that the statements of the source produce. *)
Inductive sqlval :=
| SqlNull
| SqlInt (z : Z)
| SqlReal (f : spec_float)
| SqlText (s : pystr).

Definition min_int64 : Z := - 2 ^ 63.
Definition max_int64 : Z := 2 ^ 63 - 1.

Definition is_digit (c : N) : bool := ((48 <=? c) && (c <=? 57))%N.

Fixpoint digits_of_uint (u : Decimal.uint) : pystr :=
  match u with
  | Decimal.Nil => []
  | Decimal.D0 u => 48%N :: digits_of_uint u
  | Decimal.D1 u => 49%N :: digits_of_uint u
  | Decimal.D2 u => 50%N :: digits_of_uint u
  | Decimal.D3 u => 51%N :: digits_of_uint u
  | Decimal.D4 u => 52%N :: digits_of_uint u
  | Decimal.D5 u => 53%N :: digits_of_uint u
  | Decimal.D6 u => 54%N :: digits_of_uint u
  | Decimal.D7 u => 55%N :: digits_of_uint u
  | Decimal.D8 u => 56%N :: digits_of_uint u
  | Decimal.D9 u => 57%N :: digits_of_uint u
  end.

(** ["%0wd" % n] *)
Definition zero_padded (w : nat) (n : N) : pystr :=
  let ds := digits_of_uint (N.to_uint n) in
  replicate (w - length ds) 48%N ++ ds.

(** [date.isoformat()], the default adapter of [sqlite3] for
    [datetime.date]: ["%04d-%02d-%02d"]. *)
Definition isoformat (d : pydate) : pystr :=
  zero_padded 4 (year d) ++ 45%N :: zero_padded 2 (month d)
    ++ 45%N :: zero_padded 2 (day d).

(** A surrogate code point ([U+D800] to [U+DFFF]), which UTF-8 does not
    encode. *)
Definition is_surrogate (c : N) : bool := ((55296 <=? c) && (c <=? 57343))%N.

(** The number of surrogates at the head of a text. *)
Fixpoint surrogate_run (s : pystr) : nat :=
  match s with
  | c :: s' => if is_surrogate c then S (surrogate_run s') else O
  | [] => O
  end.

(** The first run of surrogates of a text whose head is at position [i]:
    where it starts and where it stops.  The strict UTF-8 encoder raises at
    that run. *)
Fixpoint find_surrogates (i : nat) (s : pystr) : option (nat * nat) :=
  match s with
  | c :: s' =>
      if is_surrogate c then Some (i, S (i + surrogate_run s'))
      else find_surrogates (S i) s'
  | [] => None
  end.

(** What [cursor.execute] binds for one parameter: an integer must fit
    SQLite's 64-bit INTEGER ([OverflowError] otherwise), a [bool] is an
    integer, a NaN is bound as NULL, a [str] is encoded in UTF-8
    ([UnicodeEncodeError] when it holds a surrogate), a date goes through
    its adapter, and a type without adapter is refused ([ProgrammingError]
    since Python 3.11). *)
Definition bind (v : pyval) : result sqlval :=
  match v with
  | PyNone => Ok SqlNull
  | PyBool b => Ok (SqlInt (if b then 1 else 0))
  | PyInt z =>
      if (min_int64 <=? z) && (z <=? max_int64)
      then Ok (SqlInt z) else Raise OverflowError
  | PyFloat f => Ok (if is_nan f then SqlNull else SqlReal f)
  | PyStr s =>
      match find_surrogates 0 s with
      | Some (start, stop) => Raise (UnicodeEncodeError s start stop)
      | None => Ok (SqlText s)
      end
  | PyDate d => Ok (SqlText (isoformat d))
  | PyTuple _ => Raise ProgrammingError
  end.

(** Parameters are bound from left to right; the first refusal is raised.
    It is raised as it is on a connection that has no error pending, which is
    how the program makes its calls: every run of the script starts with the
    [CREATE TABLE] statements and a commit, which succeed, and makes one call
    of [add_record] or [update_record_status] after them or after a
    [fetch_data].  (When the statement before failed in a transaction that is
    still open and the first parameter is the one refused, [sqlite3] reports
    that earlier error again and keeps the refusal as its context.) *)
Fixpoint bind_all (params : list pyval) : result (list sqlval) :=
  match params with
  | [] => Ok []
  | p :: ps =>
      match bind p with
      | Raise e => Raise e
      | Ok v =>
          match bind_all ps with
          | Raise e => Raise e
          | Ok vs => Ok (v :: vs)
          end
      end
  end.

(** What a fetched value is in Python. *)
Definition py_of_sql (v : sqlval) : pyval :=
  match v with
  | SqlNull => PyNone
  | SqlInt z => PyInt z
  | SqlReal f => PyFloat f
  | SqlText s => PyStr s
  end.

(** ** Column affinity *)

Inductive affinity := TEXT | NUMERIC | INTEGER | REAL.

Definition sqlite_isspace (c : N) : bool :=
  ((9 <=? c) && (c <=? 13) || (c =? 32))%N.

Fixpoint skip_spaces (s : pystr) : pystr :=
  match s with
  | c :: s' => if sqlite_isspace c then skip_spaces s' else s
  | [] => []
  end.

Definition skip_sign (s : pystr) : pystr :=
  match s with
  | c :: s' => if ((c =? 43) || (c =? 45))%N then s' else s
  | [] => []
  end.

(** The number of leading digits, and what follows them. *)
Fixpoint span_digits (s : pystr) : nat * pystr :=
  match s with
  | c :: s' =>
      if is_digit c
      then let '(n, r) := span_digits s' in (S n, r)
      else (O, s)
  | [] => (O, [])
  end.

(** Whether a text is a well-formed integer or real literal, which is when a
    column of numeric affinity converts it to a number: spaces, a sign,
    digits, a point and digits, an exponent, spaces; at least one digit in
    the mantissa and in an exponent that is present. *)
Definition is_numeric_text (s : pystr) : bool :=
  let '(n1, s2) := span_digits (skip_sign (skip_spaces s)) in
  let '(n2, s3) :=
    match s2 with
    | c :: r => if (c =? 46)%N then span_digits r else (O, s2)
    | [] => (O, [])
    end in
  let '(exponent_ok, s4) :=
    match s3 with
    | c :: r =>
        if ((c =? 101) || (c =? 69))%N
        then let '(n3, r') := span_digits (skip_sign r) in ((0 <? n3)%nat, r')
        else (true, s3)
    | [] => (true, [])
    end in
  (0 <? n1 + n2)%nat && exponent_ok && (length (skip_spaces s4) =? 0)%nat.

(** The value of a run of decimal digits. *)
Definition digits_value (ds : pystr) : Z :=
  foldl (λ acc c, 10 * acc + (Z.of_N c - 48)) 0 ds.

(** The value of a text that is an integer literal: spaces, a sign, digits,
    spaces. *)
Definition integer_text (s : pystr) : option Z :=
  let s1 := skip_spaces s in
  let minus := match s1 with c :: _ => (c =? 45)%N | [] => false end in
  let s2 := skip_sign s1 in
  let '(n, s3) := span_digits s2 in
  if (0 <? n)%nat && (length (skip_spaces s3) =? 0)%nat
  then let z := digits_value (take n s2) in Some (if minus then - z else z)
  else None.

(** A REAL column keeps a real; a zero is read back as [0.0], also when
    [-0.0] was stored. *)
Definition stored_real (f : spec_float) : spec_float :=
  match f with
  | S754_zero _ => S754_zero false
  | _ => f
  end.

(** The binary64 value nearest to an integer, ties to even: the C
    conversion [(double)i]. *)
Definition float_of_int (z : Z) : spec_float :=
  binary_normalize 53 1024 z 0 false.

(** The integer that a real is, when it is one strictly between [-2^63] and
    [2^63 - 1]: the reals that a column of INTEGER or NUMERIC affinity stores
    as integers, and the only reals that are equal to a rowid. *)
Definition real_to_int64 (f : spec_float) : option Z :=
  match f with
  | S754_zero _ => Some 0
  | S754_finite s m e =>
      if (0 <=? e) || (Z.pos m mod 2 ^ (- e) =? 0)
      then
        let z := if 0 <=? e then Z.pos m * 2 ^ e else Z.pos m / 2 ^ (- e) in
        let z := if s then - z else z in
        if (min_int64 <? z) && (z <? max_int64) then Some z else None
      else None
  | _ => None
  end.

(** The decimal text of an integer: ["%lld"]. *)
Definition text_of_int (z : Z) : pystr :=
  (if z <? 0 then [45%N] else []) ++ digits_of_uint (N.to_uint (Z.abs_N z)).

(** The value a column of affinity [a] stores for [v].  A text column
    stores an integer as its decimal text; a REAL column stores an integer as
    the nearest real; a column of INTEGER or NUMERIC affinity stores a real
    that is an integer as that integer; a text that is an integer literal
    within 64 bits is a number for a numeric column, and a text that is no
    numeric literal stays a text.  [None]: SQLite would render a real as a
    text, or read a number from a text with a fraction, an exponent or more
    than 64 bits, which this embedding does not cover. *)
Definition apply_affinity (a : affinity) (v : sqlval) : option sqlval :=
  match v with
  | SqlNull => Some SqlNull
  | SqlText s =>
      match a with
      | TEXT => Some v
      | _ =>
          if is_numeric_text s
          then
            z ← integer_text s;
            if (min_int64 <=? z) && (z <=? max_int64)
            then Some (match a with
                       | REAL => SqlReal (float_of_int z)
                       | _ => SqlInt z
                       end)
            else None
          else Some v
      end
  | SqlInt z =>
      match a with
      | INTEGER | NUMERIC => Some v
      | REAL => Some (SqlReal (float_of_int z))
      | TEXT => Some (SqlText (text_of_int z))
      end
  | SqlReal f =>
      match a with
      | REAL => Some (SqlReal (stored_real f))
      | INTEGER | NUMERIC =>
          Some (match real_to_int64 f with
                | Some z => SqlInt z
                | None => v
                end)
      | TEXT => None
      end
  end.

(** ** The schema: the three [CREATE TABLE] statements *)

Inductive table := purchases | sales | orders.

#[global] Instance table_eq_dec : EqDecision table.
Proof. solve_decision. Defined.

(** The declared column types, and the affinity SQLite derives from the
    type name ([DATE] holds none of INT, CHAR, CLOB, TEXT, BLOB, REAL, FLOA,
    DOUB, which leaves NUMERIC). *)
Inductive decltype := TEXT_t | REAL_t | INTEGER_t | DATE_t.

Definition affinity_of (ty : decltype) : affinity :=
  match ty with
  | TEXT_t => TEXT
  | REAL_t => REAL
  | INTEGER_t => INTEGER
  | DATE_t => NUMERIC
  end.

Inductive check :=
| NoCheck
| CheckGe0                          (* CHECK(col >= 0) *)
| CheckGt0                          (* CHECK(col > 0) *)
| CheckIn (allowed : list pystr).   (* CHECK(col IN (...)) *)

Record column := Column {
  col_name : string;
  col_type : decltype;
  col_not_null : bool;
  col_check : check
}.

(** The columns after [id INTEGER PRIMARY KEY AUTOINCREMENT], in the order
    of the statement.  [DEFAULT 'Pending'] has no part: the inserts of the
    source give a value to every column. *)
Definition schema (t : table) : list column :=
  match t with
  | purchases =>
      [ Column "product_name" TEXT_t true NoCheck;
        Column "price" REAL_t true CheckGe0;
        Column "quantity" INTEGER_t true CheckGt0;
        Column "vendor" TEXT_t true NoCheck;
        Column "purchase_date" DATE_t true NoCheck ]
  | sales =>
      [ Column "product_name" TEXT_t true NoCheck;
        Column "price" REAL_t true CheckGe0;
        Column "quantity" INTEGER_t true CheckGt0;
        Column "customer" TEXT_t true NoCheck;
        Column "sale_date" DATE_t true NoCheck ]
  | orders =>
      [ Column "product_name" TEXT_t true NoCheck;
        Column "quantity" INTEGER_t true CheckGt0;
        Column "status" TEXT_t true (CheckIn [str "Pending"; str "Completed"]);
        Column "order_date" DATE_t true NoCheck ]
  end.

Definition is_null (v : sqlval) : bool :=
  match v with
  | SqlNull => true
  | _ => false
  end.

(** A CHECK fails when its expression is false; a NULL result passes.  In
    SQLite's ordering of storage classes a text is greater than every
    number, and a number is never equal to a text. *)
Definition check_holds (c : check) (v : sqlval) : bool :=
  match c, v with
  | NoCheck, _ => true
  | _, SqlNull => true
  | CheckGe0, SqlInt z => 0 <=? z
  | CheckGe0, SqlReal f => SFleb float_zero f
  | CheckGe0, SqlText _ => true
  | CheckGt0, SqlInt z => 0 <? z
  | CheckGt0, SqlReal f => SFltb float_zero f
  | CheckGt0, SqlText _ => true
  | CheckIn allowed, SqlText s => bool_decide (s ∈ allowed)
  | CheckIn _, _ => false
  end.

(** NOT NULL or CHECK of the column refuses the value. *)
Definition violates (c : column) (v : sqlval) : bool :=
  col_not_null c && is_null v || negb (check_holds (col_check c) v).

(** ** The store *)

(** A row: its rowid (the [id] column) and the other columns. *)
Abbreviation row := (Z * list sqlval)%type.

(** A table: its rows in rowid order, as a scan of the table B-tree visits
    them, and the largest rowid handed out so far, which AUTOINCREMENT keeps
    in [sqlite_sequence]. *)
Record table_state := TableState {
  rows : list row;
  seq : Z
}.

Record db := Db {
  purchases_table : table_state;
  sales_table : table_state;
  orders_table : table_state
}.

Definition get_table (t : table) (d : db) : table_state :=
  match t with
  | purchases => purchases_table d
  | sales => sales_table d
  | orders => orders_table d
  end.

Definition set_table (t : table) (ts : table_state) (d : db) : db :=
  match t with
  | purchases => Db ts (sales_table d) (orders_table d)
  | sales => Db (purchases_table d) ts (orders_table d)
  | orders => Db (purchases_table d) (sales_table d) ts
  end.

Definition empty_table : table_state := TableState [] 0.

(** The database after the three [CREATE TABLE IF NOT EXISTS] on a new
    file. *)
Definition empty_db : db := Db empty_table empty_table empty_table.

Definition largest_rowid (rs : list row) : Z :=
  foldr (λ r m, Z.max r.1 m) 0 rs.

(** AUTOINCREMENT: one more than the largest rowid the table holds or ever
    held; none is left after [2^63 - 1] (SQLITE_FULL). *)
Definition new_rowid (ts : table_state) : option Z :=
  let m := Z.max (seq ts) (largest_rowid (rows ts)) in
  if m <? max_int64 then Some (m + 1) else None.

(** The B-tree keeps the rows in rowid order. *)
Fixpoint insert_row (r : row) (rs : list row) : list row :=
  match rs with
  | [] => [r]
  | r' :: rs' => if r.1 <? r'.1 then r :: rs else r' :: insert_row r rs'
  end.

(** Column by column: the affinity of the column applied to the value. *)
Fixpoint store_values (cols : list column) (vs : list sqlval)
  : option (list sqlval) :=
  match cols, vs with
  | c :: cols', v :: vs' =>
      v' ← apply_affinity (affinity_of (col_type c)) v;
      vs'' ← store_values cols' vs';
      Some (v' :: vs'')
  | _, _ => Some []
  end.

Fixpoint any_violation (cols : list column) (vs : list sqlval) : bool :=
  match cols, vs with
  | c :: cols', v :: vs' => violates c v || any_violation cols' vs'
  | _, _ => false
  end.

(** [cursor.execute("INSERT INTO {table} VALUES (NULL, ?, ..., ?)", data)]
    with one placeholder per element of [data].  The statement is compiled
    first (it must give a value to each column), then the parameters are
    bound, then the row gets its rowid, and the constraints are checked on
    the values as the columns store them.  A statement that raises changes
    nothing. *)
Definition execute_insert (t : table) (data : list pyval) (d : db)
  : option (result unit * db) :=
  if negb (length data =? length (schema t))%nat
  then Some (Raise OperationalError, d)
  else
    match bind_all data with
    | Raise e => Some (Raise e, d)
    | Ok vs =>
        match new_rowid (get_table t d) with
        | None => Some (Raise OperationalError, d)
        | Some rowid =>
            cells ← store_values (schema t) vs;
            if any_violation (schema t) cells
            then Some (Raise IntegrityError, d)
            else
              let ts := get_table t d in
              Some (Ok (),
                    set_table t
                      (TableState (insert_row (rowid, cells) (rows ts)) rowid)
                      d)
        end
    end.

(** [add_record(table, data)].  [conn.commit()] ends the transaction that
    the insert opened; the program has a single connection, which reads its
    own writes, so that the commit changes nothing that a helper observes.
    The function has no [return]: a call that does not raise evaluates to
    [None]. *)
Definition add_record (t : table) (data : list pyval) (d : db)
  : option (result pyval * db) :=
  '(r, d') ← execute_insert t data d;
  match r with
  | Raise e => Some (Raise e, d')
  | Ok _ => Some (Ok PyNone, d')
  end.

(** [WHERE id = ?] on one row.  The parameter is taken as an integer when
    it is one without loss: an integer, a real that is an integer, a text
    that is an integer literal; NULL is equal to nothing, and so are a real
    that is no integer and a text that is no numeric literal.  [None]: a text
    that [apply_affinity] does not cover. *)
Definition id_matches (k : sqlval) (rowid : Z) : option bool :=
  match k with
  | SqlInt z => Some (bool_decide (z = rowid))
  | SqlNull => Some false
  | SqlText s =>
      if is_numeric_text s
      then
        z ← integer_text s;
        if (min_int64 <=? z) && (z <=? max_int64)
        then Some (bool_decide (z = rowid)) else None
      else Some false
  | SqlReal f => Some (bool_decide (real_to_int64 f = Some rowid))
  end.

(** [SET col = v] on the rows that [WHERE id = k] selects; [i] is the place
    of the column among those after [id].  A row whose new value the column
    refuses aborts the statement. *)
Fixpoint update_rows (i : nat) (col : column) (v k : sqlval) (rs : list row)
  : option (result (list row)) :=
  match rs with
  | [] => Some (Ok [])
  | (rowid, cells) :: rs' =>
      hit ← id_matches k rowid;
      r ← (if hit : bool
           then
             v' ← apply_affinity (affinity_of (col_type col)) v;
             Some (if violates col v'
                   then Raise IntegrityError
                   else Ok (rowid, <[i := v']> cells))
           else Some (Ok (rowid, cells)));
      match r with
      | Raise e => Some (Raise e)
      | Ok r' =>
          rest ← update_rows i col v k rs';
          match rest with
          | Raise e => Some (Raise e)
          | Ok rs'' => Some (Ok (r' :: rs''))
          end
      end
  end.

(** [cursor.execute("UPDATE {table} SET status = ? WHERE id = ?",
    (new_status, record_id))].  A table without a [status] column makes the
    statement fail when it is compiled. *)
Definition execute_update_status (t : table) (new_status record_id : pyval)
    (d : db) : option (result unit * db) :=
  match list_find (λ c, col_name c = "status"%string) (schema t) with
  | None => Some (Raise OperationalError, d)
  | Some (i, col) =>
      match bind_all [new_status; record_id] with
      | Ok [v; k] =>
          let ts := get_table t d in
          r ← update_rows i col v k (rows ts);
          match r with
          | Raise e => Some (Raise e, d)
          | Ok rs => Some (Ok (), set_table t (TableState rs (seq ts)) d)
          end
      | Ok _ => Some (Raise ProgrammingError, d)
      | Raise e => Some (Raise e, d)
      end
  end.

(** [update_record_status(table, record_id, new_status)]; no [return]. *)
Definition update_record_status (t : table) (record_id new_status : pyval)
    (d : db) : option (result pyval * db) :=
  '(r, d') ← execute_update_status t new_status record_id d;
  match r with
  | Raise e => Some (Raise e, d')
  | Ok _ => Some (Ok PyNone, d')
  end.

(** [pd.DataFrame(rows, columns=columns)]: the column labels and the rows
    of values. *)
Record DataFrame := Frame {
  df_columns : list string;
  df_rows : list (list pyval)
}.

(** [cursor.description] of [SELECT * FROM {table}]: every column of the
    table, [id] first. *)
Definition description (t : table) : list string :=
  "id"%string :: (col_name <$> schema t).

(** [cursor.fetchall()] of the same statement: every row, in the order of
    the scan, as a tuple of Python values. *)
Definition fetchall (t : table) (d : db) : list (list pyval) :=
  (λ r : row, PyInt r.1 :: (py_of_sql <$> r.2)) <$> rows (get_table t d).

(** [fetch_data(table)] *)
Definition fetch_data (t : table) (d : db) : DataFrame :=
  Frame (description t) (fetchall t d).

(** ** The form handlers *)

(** What the page shows after a submission: [st.success], [st.error], or
    an exception that no [except] clause catches. *)
Inductive feedback :=
| Success (msg : string)
| Error (msg : string)
| Uncaught (e : exn).

Fixpoint zeros (n : nat) : string :=
  match n with
  | O => ""
  | S n' => String "0" (zeros n')
  end.

(** ["%0wx" % c] and ["%d" % n] *)
Definition hex_padded (w : nat) (c : N) : string :=
  let h := HexadecimalString.NilZero.string_of_uint (N.to_hex_uint c) in
  zeros (w - String.length h) +:+ h.

Definition decimal (n : nat) : string :=
  DecimalString.NilZero.string_of_uint (Nat.to_uint n).

(** [str(e)] of the [UnicodeEncodeError] of the UTF-8 encoder: it shows the
    character when one character is at fault, and the positions of the first
    and of the last when there are more. *)
Definition surrogates_not_allowed (object : pystr) (start stop : nat) : string :=
  match object !! start with
  | Some c =>
      if (stop =? S start)%nat
      then
        "'utf-8' codec can't encode character '"
        +:+ (if (c <=? 255)%N then "\x" +:+ hex_padded 2 c
             else if (c <=? 65535)%N then "\u" +:+ hex_padded 4 c
             else "\U" +:+ hex_padded 8 c)
        +:+ "' in position " +:+ decimal start +:+ ": surrogates not allowed"
      else
        "'utf-8' codec can't encode characters in position "
        +:+ decimal start +:+ "-" +:+ decimal (stop - 1)
        +:+ ": surrogates not allowed"
  | None =>
      "'utf-8' codec can't encode characters in position "
      +:+ decimal start +:+ "-" +:+ decimal (stop - 1)
      +:+ ": surrogates not allowed"
  end.

(** [except ValueError as e: st.error(e)]: the clause catches a
    [ValueError] and its subclass [UnicodeEncodeError], and [st.error] shows
    [str(e)]; any other exception leaves the handler. *)
Definition handle (e : exn) : feedback :=
  match e with
  | ValueError msg => Error msg
  | UnicodeEncodeError object start stop =>
      Error (surrogates_not_allowed object start stop)
  | _ => Uncaught e
  end.

(** [try: validate_input(...); add_record(...); st.success(...)
     except ValueError as e: st.error(e)] *)
Definition submit (kwargs : list (string * pyval)) (t : table)
    (data : list pyval) (done : string) (d : db) : option (feedback * db) :=
  match validate_input kwargs with
  | Raise e => Some (handle e, d)
  | Ok _ =>
      '(r, d') ← add_record t data d;
      match r with
      | Ok _ => Some (Success done, d')
      | Raise e => Some (handle e, d')
      end
  end.

(** The three forms; the arguments are what the widgets return: a [str] for
    [st.text_input] and [st.selectbox], a [float] for
    [st.number_input(min_value=0.0)], an [int] for
    [st.number_input(min_value=1, step=1)], a [date] for [st.date_input]. *)
Definition submit_purchase (product_name : pystr) (price : spec_float)
    (quantity : Z) (vendor : pystr) (purchase_date : pydate) (d : db)
  : option (feedback * db) :=
  submit [("ProductName", PyStr product_name); ("Vendor", PyStr vendor)]%string
    purchases
    [PyStr product_name; PyFloat price; PyInt quantity; PyStr vendor;
     PyDate purchase_date]
    "Purchase added successfully!" d.

Definition submit_sale (product_name : pystr) (price : spec_float)
    (quantity : Z) (customer : pystr) (sale_date : pydate) (d : db)
  : option (feedback * db) :=
  submit [("ProductName", PyStr product_name); ("Customer", PyStr customer)]%string
    sales
    [PyStr product_name; PyFloat price; PyInt quantity; PyStr customer;
     PyDate sale_date]
    "Sale added successfully!" d.

Definition submit_order (product_name : pystr) (quantity : Z)
    (status : pystr) (order_date : pydate) (d : db)
  : option (feedback * db) :=
  submit [("ProductName", PyStr product_name)]%string
    orders
    [PyStr product_name; PyInt quantity; PyStr status; PyDate order_date]
    "Order added successfully!" d.

(** A submitted form with the values of its widgets. *)
Inductive form :=
| PurchaseForm (product_name : pystr) (price : spec_float) (quantity : Z)
    (vendor : pystr) (purchase_date : pydate)
| SaleForm (product_name : pystr) (price : spec_float) (quantity : Z)
    (customer : pystr) (sale_date : pydate)
| OrderForm (product_name : pystr) (quantity : Z) (status : pystr)
    (order_date : pydate).

Definition submit_form (f : form) (d : db) : option (feedback * db) :=
  match f with
  | PurchaseForm product_name price quantity vendor purchase_date =>
      submit_purchase product_name price quantity vendor purchase_date d
  | SaleForm product_name price quantity customer sale_date =>
      submit_sale product_name price quantity customer sale_date d
  | OrderForm product_name quantity status order_date =>
      submit_order product_name quantity status order_date d
  end.

(** The table a form writes to and the tuple it passes to [add_record]
    (lines 110, 137 and 163). *)
Definition table_of (f : form) : table :=
  match f with
  | PurchaseForm _ _ _ _ _ => purchases
  | SaleForm _ _ _ _ _ => sales
  | OrderForm _ _ _ _ => orders
  end.

Definition data_of (f : form) : list pyval :=
  match f with
  | PurchaseForm product_name price quantity vendor purchase_date =>
      [PyStr product_name; PyFloat price; PyInt quantity; PyStr vendor;
       PyDate purchase_date]
  | SaleForm product_name price quantity customer sale_date =>
      [PyStr product_name; PyFloat price; PyInt quantity; PyStr customer;
       PyDate sale_date]
  | OrderForm product_name quantity status order_date =>
      [PyStr product_name; PyInt quantity; PyStr status; PyDate order_date]
  end.

(** ** Runs of the program *)

(** The calls that touch the connection. *)
Inductive operation :=
| AddRecord (t : table) (data : list pyval)
| UpdateRecordStatus (t : table) (record_id new_status : pyval)
| FetchData (t : table)
| SubmitForm (f : form).

(** The store after an operation. *)
Definition run (op : operation) (d : db) : option db :=
  match op with
  | AddRecord t data => snd <$> add_record t data d
  | UpdateRecordStatus t record_id new_status =>
      snd <$> update_record_status t record_id new_status d
  | FetchData t => Some d
  | SubmitForm f => snd <$> submit_form f d
  end.

(** The stores the program can be in: it starts from the empty tables and
    goes from one store to the next by an operation. *)
Inductive reachable : db → Prop :=
| reachable_empty : reachable empty_db
| reachable_run op d d' : reachable d → run op d = Some d' → reachable d'.

(** ** Vocabulary of the properties *)

(** Empty or only whitespace. *)
Definition blank (s : pystr) : Prop := Forall (λ c, is_space c = true) s.

(** The text fields a form must fill in: [product_name], and [vendor] or
    [customer]. *)
Definition required_text (f : form) : list pystr :=
  match f with
  | PurchaseForm product_name _ _ vendor _ => [product_name; vendor]
  | SaleForm product_name _ _ customer _ => [product_name; customer]
  | OrderForm product_name _ _ _ => [product_name]
  end.

Definition quantity_of (f : form) : Z :=
  match f with
  | PurchaseForm _ _ quantity _ _ => quantity
  | SaleForm _ _ quantity _ _ => quantity
  | OrderForm _ quantity _ _ => quantity
  end.

Definition price_of (f : form) : option spec_float :=
  match f with
  | PurchaseForm _ price _ _ _ => Some price
  | SaleForm _ price _ _ _ => Some price
  | OrderForm _ _ _ _ => None
  end.

Definition status_of (f : form) : option pystr :=
  match f with
  | OrderForm _ _ status _ => Some status
  | _ => None
  end.

(** The keyword arguments a form passes to [validate_input] (lines 109,
    136 and 162). *)
Definition kwargs_of (f : form) : list (string * pyval) :=
  match f with
  | PurchaseForm product_name _ _ vendor _ =>
      [("ProductName", PyStr product_name); ("Vendor", PyStr vendor)]
  | SaleForm product_name _ _ customer _ =>
      [("ProductName", PyStr product_name); ("Customer", PyStr customer)]
  | OrderForm product_name _ _ _ =>
      [("ProductName", PyStr product_name)]
  end%string.

(** A Python [int] that SQLite's INTEGER holds. *)
Definition in_int64 (z : Z) : Prop := min_int64 ≤ z ≤ max_int64.

(** A text that UTF-8 encodes: it holds no surrogate. *)
Definition encodable (s : pystr) : Prop :=
  Forall (λ c, is_surrogate c = false) s.

(** The texts of the tuple of a form, in the order of the tuple. *)
Definition texts_of (f : form) : list pystr :=
  match f with
  | PurchaseForm product_name _ _ vendor _ => [product_name; vendor]
  | SaleForm product_name _ _ customer _ => [product_name; customer]
  | OrderForm product_name _ status _ => [product_name; status]
  end.

Definition encodable_form (f : form) : Prop := Forall encodable (texts_of f).

#[global] Instance in_int64_dec z : Decision (in_int64 z).
Proof. unfold in_int64. apply _. Defined.

#[global] Instance encodable_dec s : Decision (encodable s).
Proof. unfold encodable. apply _. Defined.

#[global] Instance encodable_form_dec f : Decision (encodable_form f).
Proof. unfold encodable_form. apply _. Defined.

(** The table has a rowid left to hand out. *)
Definition has_room (ts : table_state) : Prop :=
  Z.max (seq ts) (largest_rowid (rows ts)) < max_int64.

#[global] Instance has_room_dec ts : Decision (has_room ts).
Proof. unfold has_room. apply _. Defined.

Definition negative (f : spec_float) : Prop := SFltb f float_zero = true.

(** The values the schema accepts: a price that is a number and not below
    zero, a quantity above zero, a status of the enumeration. *)
Definition valid_form (f : form) : Prop :=
  in_int64 (quantity_of f) ∧ 0 < quantity_of f
  ∧ (∀ p, price_of f = Some p → SFleb float_zero p = true)
  ∧ (∀ s, status_of f = Some s → s = str "Pending" ∨ s = str "Completed").

(** What the columns store of the tuple of a form. *)
Definition stored_of (f : form) : list sqlval :=
  let real p := if is_nan p then SqlNull else SqlReal (stored_real p) in
  match f with
  | PurchaseForm product_name price quantity vendor purchase_date =>
      [SqlText product_name; real price; SqlInt quantity; SqlText vendor;
       SqlText (isoformat purchase_date)]
  | SaleForm product_name price quantity customer sale_date =>
      [SqlText product_name; real price; SqlInt quantity; SqlText customer;
       SqlText (isoformat sale_date)]
  | OrderForm product_name quantity status order_date =>
      [SqlText product_name; SqlInt quantity; SqlText status;
       SqlText (isoformat order_date)]
  end.

(** What [fetch_data] shows of the tuple of a form: the texts and the
    numbers, and the date in the text form in which it was stored. *)
Definition fetched_of (f : form) : list pyval :=
  match f with
  | PurchaseForm product_name price quantity vendor purchase_date =>
      [PyStr product_name; PyFloat (stored_real price); PyInt quantity;
       PyStr vendor; PyStr (isoformat purchase_date)]
  | SaleForm product_name price quantity customer sale_date =>
      [PyStr product_name; PyFloat (stored_real price); PyInt quantity;
       PyStr customer; PyStr (isoformat sale_date)]
  | OrderForm product_name quantity status order_date =>
      [PyStr product_name; PyInt quantity; PyStr status;
       PyStr (isoformat order_date)]
  end.

(** A submitted value and the value fetched for it: the same text, the
    same integer, a float that Python's [==] finds equal, and for a date
    its ISO 8601 text. *)
Definition same_value (submitted fetched : pyval) : Prop :=
  match submitted, fetched with
  | PyStr s, PyStr s' => s' = s
  | PyInt z, PyInt z' => z' = z
  | PyFloat p, PyFloat p' => SFeqb p' p = true
  | PyDate dt, PyStr s' => s' = isoformat dt
  | _, _ => False
  end.

(** [add_record] with the tuple of each form of a list, one after the
    other. *)
Fixpoint add_records (fs : list form) (d : db) : option db :=
  match fs with
  | [] => Some d
  | f :: fs' =>
      '(_, d') ← add_record (table_of f) (data_of f) d;
      add_records fs' d'
  end.

(** Tuples with consecutive ids put in front, from [next] on. *)
Fixpoint numbered (next : Z) (rs : list (list pyval)) : list (list pyval) :=
  match rs with
  | [] => []
  | r :: rs' => (PyInt next :: r) :: numbered (next + 1) rs'
  end.

(** The [id] of a fetched tuple. *)
Definition id_of (r : list pyval) : option Z :=
  match r with
  | PyInt z :: _ => Some z
  | _ => None
  end.

Definition rowids (t : table) (d : db) : list Z :=
  fst <$> rows (get_table t d).

(** What every reachable table satisfies: the rowids ascend strictly, lie
    between 1 and the recorded largest rowid, and every row has a value for
    each column of the schema. *)
Record wf_table (t : table) (ts : table_state) : Prop := WfTable {
  wf_sorted : StronglySorted Z.lt (fst <$> rows ts);
  wf_ids : Forall (λ r : row, 1 ≤ r.1 ≤ seq ts) (rows ts);
  wf_seq : 0 ≤ seq ts ≤ max_int64;
  wf_arity : Forall (λ r : row, length r.2 = length (schema t)) (rows ts)
}.

Definition wf_db (d : db) : Prop := ∀ t, wf_table t (get_table t d).

(** The store after the update of the status of the orders with the id. *)
Definition with_status (id : Z) (s : pystr) (d : db) : db :=
  let ts := get_table orders d in
  set_table orders
    (TableState
       ((λ r : row,
           if bool_decide (id = r.1)
           then (r.1, <[2%nat := SqlText s]> r.2) else r) <$> rows ts)
       (seq ts)) d.

(** ** Sample values *)

(** The binary64 value of the literal [9.99]. *)
Definition price_9_99 : spec_float := S754_finite false 5623870034678907 (-49).

Definition float_one : spec_float := S754_finite false 4503599627370496 (-52).

Definition jan15 : pydate := Date 2024 1 15.

Definition widget_purchase : list pyval :=
  [PyStr (str "Widget"); PyFloat price_9_99; PyInt 3; PyStr (str "Acme Co");
   PyDate jan15].

Definition gadget_order : list pyval :=
  [PyStr (str "Gadget"); PyInt 2; PyStr (str "Pending"); PyDate (Date 2024 2 1)].

(** The binary64 value of [-1.0]. *)
Definition float_minus_one : spec_float :=
  S754_finite true 4503599627370496 (-52).

(** The store after the order of the scenario was inserted. *)
Definition one_order : db :=
  Db empty_table empty_table
    (TableState
       [(1, [SqlText (str "Gadget"); SqlInt 2; SqlText (str "Pending");
             SqlText (str "2024-02-01")])] 1).

(** ** The orders page: marking an order as completed *)

(** [df.empty]: an axis of the frame has no element. *)
Definition df_empty (df : DataFrame) : bool :=
  (length (df_columns df) =? 0)%nat || (length (df_rows df) =? 0)%nat.

(** [df[name]]: the values of the column, row by row.  [None]: the frame
    has no such column ([KeyError]). *)
Definition get_column (name : string) (df : DataFrame) : option (list pyval) :=
  '(i, _) ← list_find (λ c, c = name) (df_columns df);
  mapM (λ r : list pyval, r !! i) (df_rows df).

(** [value == s] for a string [s]: a value that is no string is not equal
    to it. *)
Definition equals_str (s : pystr) (value : pyval) : bool :=
  match value with
  | PyStr s' => bool_decide (s' = s)
  | _ => false
  end.

(** [df[mask]]: the rows at which the mask is true. *)
Fixpoint select_rows (rs : list (list pyval)) (mask : list bool)
  : list (list pyval) :=
  match rs, mask with
  | r :: rs', b :: mask' =>
      if b then r :: select_rows rs' mask' else select_rows rs' mask'
  | _, _ => []
  end.

(** [order_data[order_data["status"] == "Pending"]] (line 176) *)
Definition pending_orders (order_data : DataFrame) : option DataFrame :=
  status ← get_column "status" order_data;
  Some (Frame (df_columns order_data)
          (select_rows (df_rows order_data)
             (equals_str (str "Pending") <$> status))).

(** What the page shows under the order records (lines 170-186): the
    message that there are no orders, the message that no order is pending,
    or the select box with the ids of the pending orders and its button. *)
Inductive update_view :=
| NoOrdersFound
| NoPendingOrders
| SelectOrder (options : list pyval).

Definition update_section (d : db) : option update_view :=
  let order_data := fetch_data orders d in
  if df_empty order_data then Some NoOrdersFound
  else
    pending ← pending_orders order_data;
    if df_empty pending then Some NoPendingOrders
    else SelectOrder <$> get_column "id" pending.

(** A click on "Mark as Completed" with the select box at its option number
    [choice] (lines 178-182).  The select box returns the element of the
    [id] column at that place, a Python [int] as [fetch_data] read it.
    [None]: the page has no such button or the box no such option. *)
Definition mark_as_completed (choice : nat) (d : db) : option (feedback * db) :=
  view ← update_section d;
  match view with
  | SelectOrder options =>
      order_id_to_update ← options !! choice;
      '(r, d') ← update_record_status orders order_id_to_update
                   (PyStr (str "Completed")) d;
      match r with
      | Ok _ => Some (Success "Order marked as completed!", d')
      | Raise e => Some (Uncaught e, d')
      end
  | _ => None
  end.

(** What a user of the pages can do to the store. *)
Inductive ui_action :=
| Submit (f : form)
| MarkAsCompleted (choice : nat).

Definition ui_run (a : ui_action) (d : db) : option db :=
  match a with
  | Submit f => snd <$> submit_form f d
  | MarkAsCompleted choice => snd <$> mark_as_completed choice d
  end.

(** The stores that the pages alone lead to. *)
Inductive ui_reachable : db → Prop :=
| ui_reachable_empty : ui_reachable empty_db
| ui_reachable_run a d d' :
    ui_reachable d → ui_run a d = Some d' → ui_reachable d'.

(** The status of the row is ['Pending']. *)
Definition is_pending (r : row) : bool :=
  match r.2 !! 2%nat with
  | Some (SqlText s) => bool_decide (s = str "Pending")
  | _ => false
  end.

(** The ids of the pending orders, in the order of the rows. *)
Definition pending_ids (d : db) : list Z :=
  (filter (λ r : row, is_pending r = true) (rows (get_table orders d))).*1.

(** Two orders: the first completed, the second pending; and both
    completed. *)
Definition two_orders : db :=
  Db empty_table empty_table
    (TableState
       [(1, [SqlText (str "Gadget"); SqlInt 2; SqlText (str "Completed");
             SqlText (str "2024-02-01")]);
        (2, [SqlText (str "Gadget"); SqlInt 2; SqlText (str "Pending");
             SqlText (str "2024-02-01")])] 2).

Definition two_orders_completed : db :=
  Db empty_table empty_table
    (TableState
       [(1, [SqlText (str "Gadget"); SqlInt 2; SqlText (str "Completed");
             SqlText (str "2024-02-01")]);
        (2, [SqlText (str "Gadget"); SqlInt 2; SqlText (str "Completed");
             SqlText (str "2024-02-01")])] 2).

(** * Properties *)

(** ** The scenarios of the specification *)

Example validate_ok :
  validate_input [("ProductName", PyStr (str "Widget")); ("Vendor", PyStr (str "Acme Co"))]%string
  = Ok PyNone.
Proof. reflexivity. Qed.

Example validate_blank :
  validate_input [("ProductName", PyStr (str "Widget")); ("Vendor", PyStr (str "  "))]%string
  = Raise (ValueError "Vendor cannot be empty!").
Proof. reflexivity. Qed.

Example scenario_purchase :
  (add_record purchases widget_purchase empty_db
     ≫= λ '(_, d), Some (fetch_data purchases d))
  = Some (Frame
      ["id"; "product_name"; "price"; "quantity"; "vendor"; "purchase_date"]%string
      [[PyInt 1; PyStr (str "Widget"); PyFloat price_9_99; PyInt 3;
        PyStr (str "Acme Co"); PyStr (str "2024-01-15")]]).
Proof. reflexivity. Qed.

Example scenario_order :
  (add_record orders gadget_order empty_db
     ≫= λ '(_, d), update_record_status orders (PyInt 1) (PyStr (str "Completed")) d
     ≫= λ '(_, d), Some (fetchall orders d))
  = Some [[PyInt 1; PyStr (str "Gadget"); PyInt 2; PyStr (str "Completed");
           PyStr (str "2024-02-01")]].
Proof. reflexivity. Qed.

(** ** The store at the edges of its constraints *)

Example nan_price_is_null :
  add_record purchases
    [PyStr (str "x"); PyFloat S754_nan; PyInt 1; PyStr (str "v"); PyDate jan15]
    empty_db
  = Some (Raise IntegrityError, empty_db).
Proof. reflexivity. Qed.

Example minus_zero_price_reads_back_zero :
  (add_record purchases
     [PyStr (str "x"); PyFloat (S754_zero true); PyInt 1; PyStr (str "v");
      PyDate jan15] empty_db
     ≫= λ '(_, d), Some (fetchall purchases d))
  = Some [[PyInt 1; PyStr (str "x"); PyFloat (S754_zero false); PyInt 1;
           PyStr (str "v"); PyStr (str "2024-01-15")]].
Proof. reflexivity. Qed.

Example infinite_price_accepted :
  (add_record purchases
     [PyStr (str "x"); PyFloat (S754_infinity false); PyInt 1; PyStr (str "v");
      PyDate jan15] empty_db
     ≫= λ '(r, _), Some r)
  = Some (Ok PyNone).
Proof. reflexivity. Qed.

Example missing_name_refused :
  add_record purchases
    [PyNone; PyFloat float_one; PyInt 1; PyStr (str "v"); PyDate jan15] empty_db
  = Some (Raise IntegrityError, empty_db).
Proof. reflexivity. Qed.

Example text_quantity_accepted :
  (add_record orders
     [PyStr (str "x"); PyStr (str "abc"); PyStr (str "Pending"); PyDate jan15]
     empty_db
     ≫= λ '(_, d), Some (fetchall orders d))
  = Some [[PyInt 1; PyStr (str "x"); PyStr (str "abc"); PyStr (str "Pending");
           PyStr (str "2024-01-15")]].
Proof. reflexivity. Qed.

Example status_is_case_sensitive :
  add_record orders
    [PyStr (str "x"); PyInt 1; PyStr (str "pending"); PyDate jan15] empty_db
  = Some (Raise IntegrityError, empty_db).
Proof. reflexivity. Qed.

Example too_few_values :
  add_record purchases
    [PyStr (str "x"); PyFloat float_one; PyInt 1; PyStr (str "v")] empty_db
  = Some (Raise OperationalError, empty_db).
Proof. reflexivity. Qed.

(** The statement is compiled before its parameters are bound. *)
Example too_few_values_first :
  add_record orders [PyTuple []; PyInt 2; PyStr (str "Pending")] empty_db
  = Some (Raise OperationalError, empty_db).
Proof. reflexivity. Qed.

Example tuple_not_bound :
  add_record orders
    [PyTuple []; PyInt 2; PyStr (str "Pending"); PyDate jan15] empty_db
  = Some (Raise ProgrammingError, empty_db).
Proof. reflexivity. Qed.

(** A text that is an integer literal is an integer for a numeric column,
    and a real that is an integer is one for an INTEGER column; a real that
    is none stays a real, and passes the CHECK when it is above zero. *)
Example integer_text_quantity :
  (add_record orders
     [PyStr (str "x"); PyStr (str " +07 "); PyStr (str "Pending"); PyDate jan15]
     empty_db
     ≫= λ '(_, d), Some (fetchall orders d))
  = Some [[PyInt 1; PyStr (str "x"); PyInt 7; PyStr (str "Pending");
           PyStr (str "2024-01-15")]].
Proof. reflexivity. Qed.

Example real_quantity :
  (add_record orders
     [PyStr (str "x"); PyFloat (S754_finite false 4503599627370496 (-51));
      PyStr (str "Pending"); PyDate jan15] empty_db
     ≫= λ '(_, d), add_record orders
          [PyStr (str "x"); PyFloat (S754_finite false 5629499534213120 (-51));
           PyStr (str "Pending"); PyDate jan15] d
     ≫= λ '(_, d), Some (fetchall orders d))
  = Some [[PyInt 1; PyStr (str "x"); PyInt 2; PyStr (str "Pending");
           PyStr (str "2024-01-15")];
          [PyInt 2; PyStr (str "x");
           PyFloat (S754_finite false 5629499534213120 (-51));
           PyStr (str "Pending"); PyStr (str "2024-01-15")]].
Proof. reflexivity. Qed.

(** An integer given for a text column is stored as its decimal text. *)
Example integer_name :
  (add_record orders
     [PyInt (-7); PyInt 1; PyStr (str "Pending"); PyDate jan15] empty_db
     ≫= λ '(_, d), Some (fetchall orders d))
  = Some [[PyInt 1; PyStr (str "-7"); PyInt 1; PyStr (str "Pending");
           PyStr (str "2024-01-15")]].
Proof. reflexivity. Qed.

(** An integer is stored in a REAL column as the nearest real: [2^53 + 1]
    as [2^53]. *)
Example integer_price_rounded :
  float_of_int (2 ^ 53 + 1) = S754_finite false 4503599627370496 1
  ∧ float_of_int (2 ^ 53 + 3) = S754_finite false 4503599627370498 1
  ∧ float_of_int 0 = S754_zero false.
Proof. split_and!; reflexivity. Qed.

(** The reals that are integers within 64 bits. *)
Example real_to_int64_bounds :
  real_to_int64 (S754_finite false 9007199254740991 10) = Some (2 ^ 63 - 1024)
  ∧ real_to_int64 (S754_finite false 4503599627370496 11) = None
  ∧ real_to_int64 (S754_finite true 4503599627370496 11) = None
  ∧ real_to_int64 (S754_zero true) = Some 0
  ∧ real_to_int64 (S754_finite false 5629499534213120 (-51)) = None
  ∧ real_to_int64 (S754_infinity false) = None.
Proof. split_and!; reflexivity. Qed.

(** A numeric text with a fraction or an exponent in a numeric column, and
    a real in a text column, would be converted in ways that the embedding
    does not cover. *)
Example numeric_text_not_covered :
  add_record orders
    [PyStr (str "x"); PyStr (str " 1e2 "); PyStr (str "Pending"); PyDate jan15]
    empty_db
  = None
  ∧ add_record orders
      [PyFloat float_one; PyInt 1; PyStr (str "Pending"); PyDate jan15] empty_db
    = None.
Proof. split; reflexivity. Qed.

(** An insert that was refused has used no id. *)
Example refused_insert_uses_no_id :
  (add_record orders
     [PyStr (str "x"); PyInt 0; PyStr (str "Pending"); PyDate jan15] empty_db
     ≫= λ '(_, d), add_record orders gadget_order d
     ≫= λ '(_, d), Some (rowids orders d))
  = Some [1].
Proof. reflexivity. Qed.

(** After the last rowid the table is full, whatever the row. *)
Example last_rowid :
  let full := set_table orders (TableState [] max_int64) empty_db in
  add_record orders gadget_order full = Some (Raise OperationalError, full)
  ∧ add_record orders
      [PyStr (str "x"); PyInt 0; PyStr (str "Pending"); PyDate jan15] full
    = Some (Raise OperationalError, full).
Proof. split; reflexivity. Qed.

Example numeric_literals :
  Forall (λ s, is_numeric_text (str s) = true)
    ["1."; ".5"; "1e+5 "; " +.5e-3 "; "1.e5"; "1E3"; "-5"; "2024"]%string
  ∧ Forall (λ s, is_numeric_text (str s) = false)
      ["."; "+"; "-"; "1e"; "1e+"; "0x10"; "1 2"; ""; " "; "+-1"; "1.5.2";
       "1e5e5"; "e5"; ".e5"; "-."; "12a"; "inf"; "nan"; "2024-01-15";
       "1_0"; "1,5"]%string.
Proof. split; repeat constructor. Qed.

(** ** Validation *)

Lemma lstrip_blank (s : pystr) : blank s → lstrip s = [].
Proof.
  induction 1 as [|c s Hc _ IH]; simpl; [done|]. by rewrite Hc.
Qed.

Lemma lstrip_nil_blank (s : pystr) : lstrip s = [] → blank s.
Proof.
  induction s as [|c s IH]; simpl; [constructor|].
  destruct (is_space c) eqn:Hc; [|done].
  intros Hs. apply Forall_cons. split; [done|by apply IH].
Qed.

(** What [lstrip] leaves does not start with a space. *)
Lemma lstrip_head (s : pystr) c r : lstrip s = c :: r → is_space c = false.
Proof.
  induction s as [|c' s IH]; simpl; [done|].
  destruct (is_space c') eqn:Hc; [done|]. by intros [= <- _].
Qed.

Lemma lstrip_suffix (s : pystr) : lstrip s `suffix_of` s.
Proof.
  induction s as [|c s IH]; simpl; [done|].
  destruct (is_space c); [by apply suffix_cons_r|done].
Qed.

Lemma blank_suffix (s r : pystr) : r `suffix_of` s → blank s → blank r.
Proof.
  intros [k ->] Hs. unfold blank in *. by apply Forall_app in Hs as [_ ?].
Qed.

(** [strip] leaves nothing exactly of the blank strings. *)
Lemma strip_nil_iff (s : pystr) : strip s = [] ↔ blank s.
Proof.
  unfold strip, rstrip. split.
  - intros Hs.
    assert (lstrip (reverse (lstrip s)) = []) as Hr.
    { rewrite <-(reverse_involutive (lstrip _)), Hs. done. }
    apply lstrip_nil_blank in Hr.
    destruct (lstrip s) as [|c r] eqn:Hl; [by apply lstrip_nil_blank|].
    apply lstrip_head in Hl.
    unfold blank in Hr. rewrite reverse_cons, Forall_app, Forall_singleton in Hr.
    destruct Hr as [_ Hc]. congruence.
  - intros Hs. by rewrite (lstrip_blank s Hs).
Qed.

Lemma is_empty_value_str (s : pystr) :
  is_empty_value (PyStr s) = true ↔ blank s.
Proof.
  unfold is_empty_value, truthy. rewrite <-strip_nil_iff.
  rewrite negb_involutive, orb_true_iff, !Nat.eqb_eq, !length_zero_iff_nil.
  split; [|by right]. intros [->|?]; done.
Qed.

Lemma is_empty_value_falsy (v : pyval) :
  truthy v = false → is_empty_value v = true.
Proof. unfold is_empty_value. by intros ->. Qed.

(** [validate_input] has no [return]. *)
Lemma validate_input_ok_none kwargs v : validate_input kwargs = Ok v → v = PyNone.
Proof.
  induction kwargs as [|[field value] kwargs IH]; simpl; [by intros [= <-]|].
  by destruct (is_empty_value value).
Qed.

(** [validate_input] raises for the first argument that line 76 rejects. *)
Lemma validate_input_first before field value after :
  Forall (λ kv : string * pyval, is_empty_value kv.2 = false) before →
  is_empty_value value = true →
  validate_input (before ++ (field, value) :: after)
  = Raise (ValueError (cannot_be_empty field)).
Proof.
  induction 1 as [|[f v] before Hv _ IH]; simpl; intros Hvalue.
  - by rewrite Hvalue.
  - simpl in Hv. rewrite Hv. auto.
Qed.

(** An argument that line 76 rejects makes the call raise, with the name
    of an argument that comes no later. *)
Lemma validate_input_raises before field value after :
  is_empty_value value = true →
  ∃ field',
    validate_input (before ++ (field, value) :: after)
    = Raise (ValueError (cannot_be_empty field'))
    ∧ field' ∈ (before ++ [(field, value)]).*1
    ∧ (Forall (λ kv : string * pyval, is_empty_value kv.2 = false) before →
       field' = field).
Proof.
  intros Hvalue. induction before as [|[f v] before IH]; simpl.
  - rewrite Hvalue. exists field. split_and!; [done|by left|done].
  - destruct (is_empty_value v) eqn:Hv.
    + exists f. split_and!; [done|by left|].
      intros HF. apply Forall_cons in HF as [HF _]. simpl in HF. congruence.
    + destruct IH as (field' & -> & Hin & Hfirst).
      exists field'. split_and!; [done|by right|].
      intros HF. apply Forall_cons in HF as [_ HF]. auto.
Qed.

Lemma validate_input_accepts kwargs :
  Forall (λ kv : string * pyval, is_empty_value kv.2 = false) kwargs →
  validate_input kwargs = Ok PyNone.
Proof.
  induction 1 as [|[f v] kwargs Hv _ IH]; simpl; [done|].
  simpl in Hv. by rewrite Hv.
Qed.

Lemma validate_input_raise_inv (kwargs : list (string * pyval)) (e : exn) :
  validate_input kwargs = Raise e →
  ∃ before field value after,
    kwargs = before ++ (field, value) :: after
    ∧ Forall (λ kv : string * pyval, is_empty_value kv.2 = false) before
    ∧ is_empty_value value = true
    ∧ e = ValueError (field +:+ " cannot be empty!").
Proof.
  induction kwargs as [|[field value] kwargs IH]; simpl; [done|].
  destruct (is_empty_value value) eqn:Hv.
  - intros [= <-]. exists [], field, value, kwargs. by split_and!.
  - intros (before & f & v & after & -> & Hb & Hv' & ->)%IH.
    exists ((field, value) :: before), f, v, after.
    split_and!; try done. by constructor.
Qed.

(** ** Dates are stored as text *)

Lemma is_digit_spec c : is_digit c = true ↔ (48 ≤ c ≤ 57)%N.
Proof. unfold is_digit. rewrite andb_true_iff, !N.leb_le. done. Qed.

Lemma digit_no_space c : is_digit c = true → sqlite_isspace c = false.
Proof.
  rewrite is_digit_spec. intros Hc. unfold sqlite_isspace.
  apply not_true_iff_false.
  rewrite orb_true_iff, andb_true_iff, !N.leb_le, N.eqb_eq. lia.
Qed.

Lemma digit_no_sign c : is_digit c = true → ((c =? 43) || (c =? 45))%N = false.
Proof.
  rewrite is_digit_spec. intros Hc. apply not_true_iff_false.
  rewrite orb_true_iff, !N.eqb_eq. lia.
Qed.

Lemma digits_of_uint_digits u :
  Forall (λ c, is_digit c = true) (digits_of_uint u).
Proof. induction u; simpl; constructor; done. Qed.

Lemma zero_padded_digits w n :
  Forall (λ c, is_digit c = true) (zero_padded w n).
Proof.
  unfold zero_padded. apply Forall_app. split.
  - by apply Forall_replicate.
  - apply digits_of_uint_digits.
Qed.

Lemma zero_padded_length w n : (w ≤ length (zero_padded w n))%nat.
Proof. unfold zero_padded. rewrite length_app, length_replicate. lia. Qed.

Lemma span_digits_app (ds : pystr) c r :
  Forall (λ c, is_digit c = true) ds → is_digit c = false →
  span_digits (ds ++ c :: r) = (length ds, c :: r).
Proof.
  intros Hds Hc. induction Hds as [|c' ds Hc' _ IH]; simpl.
  - by rewrite Hc.
  - by rewrite Hc', IH.
Qed.

(** A string that starts with digits followed by a minus sign is no numeric
    literal. *)
Lemma digits_minus_not_numeric (ds : pystr) r :
  Forall (λ c, is_digit c = true) ds → ds ≠ [] →
  is_numeric_text (ds ++ 45%N :: r) = false.
Proof.
  intros Hds Hne. unfold is_numeric_text.
  destruct ds as [|c ds]; [done|].
  pose proof (Forall_inv Hds) as Hc. simpl in Hc.
  assert (skip_sign (skip_spaces ((c :: ds) ++ 45%N :: r))
          = (c :: ds) ++ 45%N :: r) as ->.
  { simpl. rewrite (digit_no_space c Hc). simpl. by rewrite (digit_no_sign c Hc). }
  rewrite (span_digits_app (c :: ds) 45%N r Hds eq_refl).
  simpl. by rewrite ?andb_false_r.
Qed.

Lemma isoformat_not_numeric d : is_numeric_text (isoformat d) = false.
Proof.
  unfold isoformat. apply digits_minus_not_numeric.
  - apply zero_padded_digits.
  - intros Hnil. pose proof (zero_padded_length 4 (year d)) as Hlen.
    rewrite Hnil in Hlen. simpl in Hlen. lia.
Qed.

Example isoformat_jan15 : isoformat jan15 = str "2024-01-15".
Proof. reflexivity. Qed.

Example isoformat_year_1 : isoformat (Date 1 1 1) = str "0001-01-01".
Proof. reflexivity. Qed.

(** ** Binding and storing the tuple of a form *)

Lemma bind_int z : in_int64 z → bind (PyInt z) = Ok (SqlInt z).
Proof.
  intros [Hlo Hhi]. simpl.
  apply Z.leb_le in Hlo, Hhi. by rewrite Hlo, Hhi.
Qed.

(** The UTF-8 encoder finds a run of surrogates exactly in the texts that
    hold a surrogate. *)
Lemma find_surrogates_None i s : find_surrogates i s = None ↔ encodable s.
Proof.
  unfold encodable. revert i. induction s as [|c s IH]; intros i; simpl.
  - split; [constructor|done].
  - rewrite Forall_cons. destruct (is_surrogate c); [by split; [|intros [? _]]|].
    rewrite IH. tauto.
Qed.

Lemma find_surrogates_Some i s start stop :
  find_surrogates i s = Some (start, stop) →
  (i ≤ start < stop)%nat
  ∧ ∃ c, s !! (start - i)%nat = Some c ∧ is_surrogate c = true.
Proof.
  revert i. induction s as [|c s IH]; intros i; simpl; [done|].
  destruct (is_surrogate c) eqn:Hc.
  - intros [= <- <-]. split; [lia|]. exists c. by rewrite Nat.sub_diag.
  - intros [Hle (c' & Hc' & Hs)]%IH. split; [lia|]. exists c'.
    split; [|done]. by replace (start - i)%nat with (S (start - S i)) by lia.
Qed.

Lemma bind_str s : encodable s → bind (PyStr s) = Ok (SqlText s).
Proof. intros Hs%(find_surrogates_None 0). simpl. by rewrite Hs. Qed.

(** A text that holds a surrogate is refused when it is bound. *)
Lemma bind_str_raise s :
  ¬ encodable s →
  ∃ start stop,
    find_surrogates 0 s = Some (start, stop)
    ∧ bind (PyStr s) = Raise (UnicodeEncodeError s start stop).
Proof.
  intros Hs. simpl.
  destruct (find_surrogates 0 s) as [[start stop]|] eqn:Hf; [eauto|].
  by apply find_surrogates_None in Hf.
Qed.

Lemma bind_str_inv s v : bind (PyStr s) = Ok v → encodable s ∧ v = SqlText s.
Proof.
  simpl. destruct (find_surrogates 0 s) as [[start stop]|] eqn:Hf; [done|].
  apply find_surrogates_None in Hf. by intros [= <-].
Qed.

Lemma encodable_form_inv (f : form) :
  encodable_form f →
  match f with
  | PurchaseForm product_name _ _ vendor _ =>
      encodable product_name ∧ encodable vendor
  | SaleForm product_name _ _ customer _ =>
      encodable product_name ∧ encodable customer
  | OrderForm product_name _ status _ =>
      encodable product_name ∧ encodable status
  end.
Proof.
  unfold encodable_form. destruct f; simpl;
    by intros [? [? _]%Forall_cons]%Forall_cons.
Qed.

Lemma store_form (f : form) :
  in_int64 (quantity_of f) → encodable_form f →
  ∃ vs, bind_all (data_of f) = Ok vs
        ∧ store_values (schema (table_of f)) vs = Some (stored_of f).
Proof.
  intros Hq Henc%encodable_form_inv.
  destruct f; simpl in Hq; destruct Henc as [H1 H2];
    unfold data_of, bind_all;
    rewrite (bind_int _ Hq), (bind_str _ H1), (bind_str _ H2); simpl bind;
    eexists; (split; [reflexivity|]);
    simpl; rewrite isoformat_not_numeric; simpl;
    try (match goal with |- context [is_nan ?p] => destruct (is_nan p) end);
    reflexivity.
Qed.

Lemma stored_real_negative p :
  negative p → is_nan p = false ∧ SFleb float_zero (stored_real p) = false.
Proof. unfold negative. destruct p as [[]|[]| |[] m e]; done. Qed.

Lemma stored_real_not_negative p :
  SFleb float_zero p = true →
  is_nan p = false ∧ SFleb float_zero (stored_real p) = true.
Proof. destruct p as [[]|[]| |[] m e]; done. Qed.

(** Python's [==] on a price and what the column gives back for it. *)
Lemma stored_real_eq p : is_nan p = false → SFeqb (stored_real p) p = true.
Proof.
  destruct p as [[]|[]| |[] m e]; try done; intros _; unfold SFeqb; simpl;
    by rewrite Z.compare_refl, Pos.compare_cont_refl.
Qed.

Lemma violation_of_bad_form (f : form) :
  (∃ p, price_of f = Some p ∧ negative p) ∨ quantity_of f ≤ 0 →
  any_violation (schema (table_of f)) (stored_of f) = true.
Proof.
  intros [(p & Hp & Hneg)|Hq].
  - apply stored_real_negative in Hneg as [Hnan Hle].
    destruct f; simplify_eq/=; unfold violates; simpl;
      rewrite Hnan; simpl; rewrite Hle; done.
  - apply Z.ltb_ge in Hq.
    destruct f; simpl in *; unfold violates; simpl; rewrite Hq; simpl;
      rewrite ?orb_true_r; done.
Qed.

Lemma no_violation_of_valid_form (f : form) :
  valid_form f → any_violation (schema (table_of f)) (stored_of f) = false.
Proof.
  intros (_ & Hq & Hp & Hs). apply Z.ltb_lt in Hq.
  destruct f; simpl in *; unfold violates; simpl; rewrite Hq; simpl.
  - destruct (stored_real_not_negative price (Hp _ eq_refl)) as [-> ->]. done.
  - destruct (stored_real_not_negative price (Hp _ eq_refl)) as [-> ->]. done.
  - destruct (Hs _ eq_refl) as [-> | ->]; done.
Qed.

(** ** Tables *)

Lemma get_set_table t ts d : get_table t (set_table t ts d) = ts.
Proof. by destruct t. Qed.

Lemma get_set_table_ne t t' ts d :
  t ≠ t' → get_table t' (set_table t ts d) = get_table t' d.
Proof. by destruct t, t'. Qed.

Lemma set_get_table t d : set_table t (get_table t d) d = d.
Proof. by destruct t, d. Qed.

Lemma largest_rowid_ge (rs : list row) :
  0 ≤ largest_rowid rs ∧ Forall (λ r : row, r.1 ≤ largest_rowid rs) rs.
Proof.
  induction rs as [|r rs [IH0 IH]]; simpl; [by split; [|constructor]|].
  split; [lia|]. constructor; [lia|].
  eapply Forall_impl; [exact IH|]. simpl. lia.
Qed.

Lemma largest_rowid_le (rs : list row) (b : Z) :
  0 ≤ b → Forall (λ r : row, r.1 ≤ b) rs → largest_rowid rs ≤ b.
Proof. intros Hb. induction 1; simpl; lia. Qed.

Lemma new_rowid_Some ts rowid :
  new_rowid ts = Some rowid
  ↔ has_room ts ∧ rowid = Z.max (seq ts) (largest_rowid (rows ts)) + 1.
Proof.
  unfold new_rowid, has_room.
  destruct (Z.ltb_spec (Z.max (seq ts) (largest_rowid (rows ts))) max_int64);
    split; try intros [= <-]; try intros [? ->]; try done; lia.
Qed.

Lemma new_rowid_None ts : new_rowid ts = None ↔ ¬ has_room ts.
Proof.
  unfold new_rowid, has_room.
  destruct (Z.ltb_spec (Z.max (seq ts) (largest_rowid (rows ts))) max_int64);
    split; try done; lia.
Qed.

(** The new rowid is above the recorded largest rowid and above the rowid
    of every row of the table. *)
Lemma new_rowid_fresh ts rowid :
  new_rowid ts = Some rowid →
  seq ts < rowid ≤ max_int64 ∧ 1 ≤ rowid
  ∧ Forall (λ r : row, r.1 < rowid) (rows ts).
Proof.
  intros [Hroom ->]%new_rowid_Some. unfold has_room in Hroom.
  destruct (largest_rowid_ge (rows ts)) as [H0 Hall].
  split_and!; [lia..|].
  eapply Forall_impl; [exact Hall|]. simpl. lia.
Qed.

(** A row whose rowid is above the others goes to the end. *)
Lemma insert_row_last (r : row) (rs : list row) :
  Forall (λ r' : row, r'.1 < r.1) rs → insert_row r rs = rs ++ [r].
Proof.
  induction 1 as [|r' rs Hr' _ IH]; simpl; [done|].
  destruct (Z.ltb_spec r.1 r'.1); [lia|]. by rewrite IH.
Qed.

Lemma store_values_length cols vs cells :
  store_values cols vs = Some cells → length vs = length cols →
  length cells = length cols.
Proof.
  revert vs cells. induction cols as [|c cols IH]; intros [|v vs] cells; simpl;
    try (intros [= <-]; done).
  intros Hst [= Hlen].
  destruct (apply_affinity _ v); simpl in Hst; [|done].
  destruct (store_values cols vs) as [cells'|] eqn:Hcells; simplify_eq/=.
  f_equal. eauto.
Qed.

Lemma bind_all_length params vs :
  bind_all params = Ok vs → length vs = length params.
Proof.
  revert vs. induction params as [|p ps IH]; intros vs; simpl.
  - by intros [= <-].
  - destruct (bind p); [|done]. destruct (bind_all ps); [|done].
    intros [= <-]. simpl. f_equal. auto.
Qed.

(** ** What the statements do to the store *)

(** An insert that raises leaves the store as it was. *)
Lemma execute_insert_raise t data d e d' :
  execute_insert t data d = Some (Raise e, d') → d' = d.
Proof.
  unfold execute_insert. intros H.
  repeat (case_match; simplify_option_eq); done.
Qed.

(** An insert that succeeds appends one row, with the new rowid. *)
Lemma execute_insert_ok t data d u d' :
  execute_insert t data d = Some (Ok u, d') →
  ∃ vs rowid cells,
    length data = length (schema t)
    ∧ bind_all data = Ok vs
    ∧ new_rowid (get_table t d) = Some rowid
    ∧ store_values (schema t) vs = Some cells
    ∧ any_violation (schema t) cells = false
    ∧ d' = set_table t
             (TableState (rows (get_table t d) ++ [(rowid, cells)]) rowid) d.
Proof.
  unfold execute_insert. intros H.
  destruct (negb _) eqn:Hlen; [done|].
  apply negb_false_iff, Nat.eqb_eq in Hlen.
  destruct (bind_all data) as [vs|] eqn:Hvs; [|done].
  destruct (new_rowid _) as [rowid|] eqn:Hid; [|done].
  destruct (store_values _ vs) as [cells|] eqn:Hcells; [|done]. simpl in H.
  destruct (any_violation _ cells) eqn:Hviol; [done|].
  injection H as _ <-.
  exists vs, rowid, cells. split_and!; try done.
  rewrite insert_row_last; [done|].
  by apply new_rowid_fresh in Hid as (_ & _ & ?).
Qed.

Lemma add_record_raise t data d e d' :
  add_record t data d = Some (Raise e, d') → d' = d.
Proof.
  unfold add_record. intros H.
  destruct (execute_insert t data d) as [[[u|e'] d'']|] eqn:Hex; simplify_eq/=.
  by apply execute_insert_raise in Hex.
Qed.

Lemma add_record_ok t data d v d' :
  add_record t data d = Some (Ok v, d') →
  v = PyNone ∧ ∃ u, execute_insert t data d = Some (Ok u, d').
Proof.
  unfold add_record. intros H.
  destruct (execute_insert t data d) as [[[u|e'] d'']|] eqn:Hex; simplify_eq/=.
  eauto.
Qed.

(** The insert of the tuple of a form: refused when a constraint fails,
    and appended otherwise. *)
Lemma add_record_form (f : form) (d : db) :
  in_int64 (quantity_of f) → encodable_form f →
  has_room (get_table (table_of f) d) →
  let ts := get_table (table_of f) d in
  let rowid := Z.max (seq ts) (largest_rowid (rows ts)) + 1 in
  add_record (table_of f) (data_of f) d
  = Some (if any_violation (schema (table_of f)) (stored_of f)
          then (Raise IntegrityError, d)
          else (Ok PyNone,
                set_table (table_of f)
                  (TableState (rows ts ++ [(rowid, stored_of f)]) rowid) d)).
Proof.
  intros Hq Henc Hroom ts rowid.
  destruct (store_form f Hq Henc) as (vs & Hvs & Hcells).
  assert (new_rowid ts = Some rowid) as Hid by by apply new_rowid_Some.
  unfold add_record, execute_insert. fold ts.
  assert (length (data_of f) = length (schema (table_of f))) as -> by by destruct f.
  rewrite Nat.eqb_refl, Hvs, Hid, Hcells. simpl.
  destruct (any_violation _ _); simpl; [done|].
  rewrite insert_row_last; [done|].
  by apply new_rowid_fresh in Hid as (_ & _ & ?).
Qed.

(** An update that succeeds keeps every row in its place, with its rowid,
    and changes at most the cell [i] of the rows that the parameter
    selects. *)
Lemma update_rows_ok i col v k rs rs' :
  update_rows i col v k rs = Some (Ok rs') →
  Forall2 (λ r r' : row,
      r'.1 = r.1
      ∧ (r' = r
         ∨ id_matches k r.1 = Some true
           ∧ ∃ v', apply_affinity (affinity_of (col_type col)) v = Some v'
                   ∧ violates col v' = false
                   ∧ r'.2 = <[i := v']> r.2)) rs rs'.
Proof.
  revert rs'. induction rs as [|[rowid cells] rs IH]; intros rs'; simpl.
  - intros [= <-]. constructor.
  - destruct (id_matches k rowid) as [[]|] eqn:Hhit; simpl; [| |done].
    + destruct (apply_affinity _ v) as [v'|] eqn:Hv; simpl; [|done].
      destruct (violates col v') eqn:Hviol; simpl; [done|].
      destruct (update_rows i col v k rs) as [[rs''|]|]; simpl; [|done..].
      intros [= <-]. constructor; [|by apply IH].
      split; [done|]. right. eauto.
    + destruct (update_rows i col v k rs) as [[rs''|]|]; simpl; [|done..].
      intros [= <-]. constructor; [|by apply IH]. split; [done|by left].
Qed.

Lemma execute_update_status_raise t new_status record_id d e d' :
  execute_update_status t new_status record_id d = Some (Raise e, d') → d' = d.
Proof.
  unfold execute_update_status. intros H.
  repeat (case_match; simplify_option_eq); done.
Qed.

Lemma execute_update_status_ok t new_status record_id d u d' :
  execute_update_status t new_status record_id d = Some (Ok u, d') →
  ∃ i col v k rs,
    list_find (λ c, col_name c = "status"%string) (schema t) = Some (i, col)
    ∧ bind_all [new_status; record_id] = Ok [v; k]
    ∧ update_rows i col v k (rows (get_table t d)) = Some (Ok rs)
    ∧ d' = set_table t (TableState rs (seq (get_table t d))) d.
Proof.
  unfold execute_update_status. intros H.
  destruct (list_find _ _) as [[i col]|] eqn:Hcol; [|done].
  destruct (bind_all _) as [[|v [|k [|]]]|] eqn:Hb; try done.
  destruct (update_rows _ _ _ _ _) as [[rs|]|] eqn:Hrs; simplify_eq/=.
  by exists i, col, v, k, rs.
Qed.

Lemma update_record_status_raise t record_id new_status d e d' :
  update_record_status t record_id new_status d = Some (Raise e, d') → d' = d.
Proof.
  unfold update_record_status. intros H.
  destruct (execute_update_status _ _ _ _) as [[[u|e'] d'']|] eqn:Hex;
    simplify_eq/=.
  by apply execute_update_status_raise in Hex.
Qed.

Lemma update_record_status_ok t record_id new_status d v d' :
  update_record_status t record_id new_status d = Some (Ok v, d') →
  v = PyNone
  ∧ ∃ u, execute_update_status t new_status record_id d = Some (Ok u, d').
Proof.
  unfold update_record_status. intros H.
  destruct (execute_update_status _ _ _ _) as [[[u|e'] d'']|] eqn:Hex;
    simplify_eq/=.
  eauto.
Qed.

(** The update of a text column with an integer key: refused when the
    column refuses the text and a row has the key, and otherwise the rows
    with the key get the text. *)
Lemma update_rows_int i col s id (rs : list row) :
  affinity_of (col_type col) = TEXT →
  update_rows i col (SqlText s) (SqlInt id) rs
  = Some (if violates col (SqlText s) && bool_decide (id ∈ rs.*1)
          then Raise IntegrityError
          else Ok ((λ r : row,
                      if bool_decide (id = r.1)
                      then (r.1, <[i := SqlText s]> r.2) else r) <$> rs)).
Proof.
  intros Haff. induction rs as [|[rowid cells] rs IH]; simpl.
  - by rewrite andb_false_r.
  - rewrite Haff. simpl. rewrite IH. clear IH.
    destruct (decide (id = rowid)) as [->|Hne].
    + rewrite (bool_decide_eq_true_2 (rowid = rowid)) by done.
      rewrite (bool_decide_eq_true_2 (rowid ∈ rowid :: _)) by by left.
      destruct (violates col (SqlText s)); simpl; done.
    + rewrite (bool_decide_eq_false_2 (id = rowid)) by done. simpl.
      rewrite (bool_decide_ext (id ∈ rowid :: _) (id ∈ rs.*1))
        by (rewrite elem_of_cons; tauto).
      destruct (violates col (SqlText s) && _); done.
Qed.

Lemma table_state_eta ts : TableState (rows ts) (seq ts) = ts.
Proof. by destruct ts. Qed.

Lemma status_column :
  list_find (λ c, col_name c = "status"%string) (schema orders)
  = Some (2%nat,
          Column "status" TEXT_t true (CheckIn [str "Pending"; str "Completed"])).
Proof. reflexivity. Qed.

Lemma status_accepted s :
  violates (Column "status" TEXT_t true (CheckIn [str "Pending"; str "Completed"]))
    (SqlText s) = false
  ↔ s = str "Pending" ∨ s = str "Completed".
Proof.
  unfold violates. simpl. rewrite negb_false_iff, bool_decide_eq_true.
  rewrite !elem_of_cons, elem_of_nil. tauto.
Qed.

(** [update_record_status] on the orders table, for an order id and a
    status text. *)
Lemma update_order_status (d : db) (id : Z) (s : pystr) :
  in_int64 id → encodable s →
  let col := Column "status" TEXT_t true (CheckIn [str "Pending"; str "Completed"]) in
  let ts := get_table orders d in
  update_record_status orders (PyInt id) (PyStr s) d
  = Some (if violates col (SqlText s) && bool_decide (id ∈ rowids orders d)
          then (Raise IntegrityError, d)
          else (Ok PyNone,
                set_table orders
                  (TableState
                     ((λ r : row,
                         if bool_decide (id = r.1)
                         then (r.1, <[2%nat := SqlText s]> r.2) else r)
                        <$> rows ts) (seq ts)) d)).
Proof.
  intros Hid Hs col ts.
  unfold update_record_status, execute_update_status.
  rewrite status_column. unfold bind_all.
  rewrite (bind_int id Hid), (bind_str s Hs).
  cbv iota beta. rewrite update_rows_int by done. fold col. fold ts.
  unfold rowids. fold ts.
  destruct (violates col (SqlText s) && _); done.
Qed.

Lemma update_order_status_accepted (d : db) (id : Z) (s : pystr) :
  in_int64 id → encodable s →
  s = str "Pending" ∨ s = str "Completed" ∨ id ∉ rowids orders d →
  update_record_status orders (PyInt id) (PyStr s) d
  = Some (Ok PyNone, with_status id s d).
Proof.
  intros Hid Henc Hs. rewrite (update_order_status d id s Hid Henc). cbv zeta.
  destruct (violates _ (SqlText s)) eqn:Hviol; [|done].
  destruct Hs as [Hs|[Hs|Hs]].
  - apply or_introl with (B := s = str "Completed"), status_accepted in Hs.
    congruence.
  - apply or_intror with (A := s = str "Pending"), status_accepted in Hs.
    congruence.
  - by rewrite bool_decide_eq_false_2.
Qed.

Lemma with_status_other_table id s d t :
  t ≠ orders → get_table t (with_status id s d) = get_table t d.
Proof. intros Hne. unfold with_status. by rewrite get_set_table_ne. Qed.

Lemma with_status_rows id s d :
  rows (get_table orders (with_status id s d))
  = (λ r : row,
       if bool_decide (id = r.1)
       then (r.1, <[2%nat := SqlText s]> r.2) else r)
      <$> rows (get_table orders d).
Proof. unfold with_status. by rewrite get_set_table. Qed.

Lemma with_status_rowids id s d :
  rowids orders (with_status id s d) = rowids orders d.
Proof.
  unfold rowids. rewrite with_status_rows, <-list_fmap_compose.
  apply list_fmap_ext. intros _ r _. simpl. by case_bool_decide.
Qed.

(** Setting the same status twice is setting it once. *)
Lemma with_status_idemp id s d :
  with_status id s (with_status id s d) = with_status id s d.
Proof.
  unfold with_status at 1. rewrite with_status_rows.
  unfold with_status. rewrite get_set_table. simpl.
  destruct d as [p sa o]. simpl. do 2 f_equal.
  rewrite <-list_fmap_compose. apply list_fmap_ext. intros _ [rowid cells] _.
  simpl. destruct (decide (id = rowid)) as [->|Hne].
  - rewrite (bool_decide_eq_true_2 (rowid = rowid)) by done. simpl.
    rewrite (bool_decide_eq_true_2 (rowid = rowid)) by done.
    by rewrite list_insert_insert_eq.
  - rewrite (bool_decide_eq_false_2 (id = rowid)) by done. simpl.
    by rewrite (bool_decide_eq_false_2 (id = rowid)).
Qed.

(** No order with the id: nothing to set. *)
Lemma with_status_absent id s d :
  id ∉ rowids orders d → with_status id s d = d.
Proof.
  intros Hid. unfold with_status.
  assert ((λ r : row,
             if bool_decide (id = r.1)
             then (r.1, <[2%nat := SqlText s]> r.2) else r)
            <$> rows (get_table orders d) = rows (get_table orders d)) as ->.
  { rewrite <-(list_fmap_id (rows (get_table orders d))) at 2.
    apply list_fmap_ext. intros i r Hr. simpl.
    rewrite bool_decide_eq_false_2; [done|]. intros ->. apply Hid.
    unfold rowids. apply list_elem_of_fmap. exists r. split; [done|].
    by eapply list_elem_of_lookup_2. }
  by rewrite table_state_eta, set_get_table.
Qed.

(** ** The invariant of the reachable stores *)

Lemma wf_empty_db : wf_db empty_db.
Proof.
  intros t. destruct t; (split; simpl; [constructor|constructor| |constructor]);
    unfold max_int64; lia.
Qed.

Lemma wf_set_table t ts d :
  wf_db d → wf_table t ts → wf_db (set_table t ts d).
Proof.
  intros Hd Hts t'. destruct (decide (t = t')) as [<-|Hne].
  - by rewrite get_set_table.
  - rewrite get_set_table_ne by done. apply Hd.
Qed.

(** Appending a row with the new rowid keeps the invariant. *)
Lemma wf_insert t ts rowid cells :
  wf_table t ts → new_rowid ts = Some rowid →
  length cells = length (schema t) →
  wf_table t (TableState (rows ts ++ [(rowid, cells)]) rowid).
Proof.
  intros [Hsorted Hids Hseq Harity] Hid Hlen.
  apply new_rowid_fresh in Hid as (Hgt & H1 & Hfresh).
  split; simpl.
  - rewrite fmap_app. apply StronglySorted_app. split_and!.
    + intros x y Hx Hy. apply list_elem_of_singleton in Hy as ->.
      apply list_elem_of_fmap in Hx as (r & -> & Hr).
      by apply (proj1 (Forall_forall _ _) Hfresh).
    + done.
    + repeat constructor.
  - apply Forall_app. split.
    + eapply Forall_impl; [exact Hids|]. simpl. lia.
    + constructor; [simpl; lia|constructor].
  - lia.
  - apply Forall_app. split; [done|]. by constructor.
Qed.

(** Rows that keep their rowid and their number of cells keep the
    invariant. *)
Lemma wf_update t ts rs :
  wf_table t ts →
  Forall2 (λ r r' : row, r'.1 = r.1 ∧ length r'.2 = length r.2) (rows ts) rs →
  wf_table t (TableState rs (seq ts)).
Proof.
  destruct ts as [rs0 sq]. intros [Hsorted Hids Hseq Harity] Hrs. simpl in *.
  assert (rs.*1 = rs0.*1) as Hfst.
  { clear -Hrs. induction Hrs as [|r r' ? ? [? _] _ IH]; simpl; [done|].
    by f_equal. }
  split; simpl.
  - by rewrite Hfst.
  - clear Hsorted Harity Hfst. induction Hrs as [|r r' ? ? [Hr _] _ IH];
      [constructor|].
    apply Forall_cons in Hids as [? ?]. constructor; [by rewrite Hr|auto].
  - done.
  - clear Hsorted Hids Hfst. induction Hrs as [|r r' ? ? [_ Hr] _ IH];
      [constructor|].
    apply Forall_cons in Harity as [? ?]. constructor; [by rewrite Hr|auto].
Qed.

Lemma add_record_wf t data d r d' :
  wf_db d → add_record t data d = Some (r, d') → wf_db d'.
Proof.
  intros Hd Hadd. destruct r as [v|e].
  - apply add_record_ok in Hadd as (_ & u & Hex).
    apply execute_insert_ok in Hex
      as (vs & rowid & cells & Hlen & Hvs & Hid & Hcells & _ & ->).
    apply wf_set_table; [done|]. apply wf_insert; [apply Hd|done|].
    apply (store_values_length _ vs); [done|].
    apply bind_all_length in Hvs. congruence.
  - by apply add_record_raise in Hadd as ->.
Qed.

Lemma update_record_status_wf t record_id new_status d r d' :
  wf_db d → update_record_status t record_id new_status d = Some (r, d') →
  wf_db d'.
Proof.
  intros Hd Hupd. destruct r as [v|e].
  - apply update_record_status_ok in Hupd as (_ & u & Hex).
    apply execute_update_status_ok in Hex
      as (i & col & v' & k & rs & _ & _ & Hrs & ->).
    apply wf_set_table; [done|]. apply wf_update; [apply Hd|].
    apply update_rows_ok in Hrs.
    eapply Forall2_impl; [exact Hrs|]. simpl.
    intros r r' [Hid [->|(_ & w & _ & _ & Hcells)]]; [done|].
    split; [done|]. by rewrite Hcells, length_insert.
  - by apply update_record_status_raise in Hupd as ->.
Qed.

(** A submission either leaves the store as it was or is a call of
    [add_record] with the tuple of the form. *)
Lemma submit_form_store f d fb d' :
  submit_form f d = Some (fb, d') →
  d' = d ∨ ∃ r, add_record (table_of f) (data_of f) d = Some (r, d').
Proof.
  intros H.
  assert (∀ kwargs done,
    submit kwargs (table_of f) (data_of f) done d = Some (fb, d') →
    d' = d ∨ ∃ r, add_record (table_of f) (data_of f) d = Some (r, d')) as Hs.
  { intros kwargs done. unfold submit.
    destruct (validate_input kwargs) as [|[]]; try (intros [= _ <-]; by left).
    destruct (add_record _ _ d) as [[r d'']|]; [|done]. simpl.
    intros Hr. right. exists r.
    by repeat (case_match; simplify_eq). }
  destruct f; simpl in H; eapply Hs; exact H.
Qed.

Lemma run_wf op d d' : wf_db d → run op d = Some d' → wf_db d'.
Proof.
  intros Hd. destruct op as [t data|t record_id new_status|t|f]; simpl.
  - destruct (add_record t data d) as [[r d'']|] eqn:Hadd; intros [= <-].
    by eapply add_record_wf.
  - destruct (update_record_status _ _ _ d) as [[r d'']|] eqn:Hupd;
      intros [= <-].
    by eapply update_record_status_wf.
  - by intros [= <-].
  - destruct (submit_form f d) as [[fb d'']|] eqn:Hsub; intros [= <-].
    apply submit_form_store in Hsub as [->|[r Hadd]]; [done|].
    by eapply add_record_wf.
Qed.

Lemma reachable_wf d : reachable d → wf_db d.
Proof.
  induction 1 as [|op d d' _ IH Hrun]; [apply wf_empty_db|by eapply run_wf].
Qed.

(** ** Validation before the insert (C1) *)

Lemma submit_raises kwargs t data done d msg :
  validate_input kwargs = Raise (ValueError msg) →
  submit kwargs t data done d = Some (Error msg, d).
Proof. unfold submit. by intros ->. Qed.

Lemma submit_form_unfold f d :
  ∃ done, submit_form f d = submit (kwargs_of f) (table_of f) (data_of f) done d.
Proof. destruct f; eexists; reflexivity. Qed.

(** C1, as the code has it: the check is made by the form handlers, which
    call [validate_input] before [add_record].  When a required text field
    of a submitted form (product name, vendor, customer) is empty or holds
    only whitespace, [validate_input] raises [ValueError], the handler shows
    its message, [add_record] is not called and the store stays as it was. *)
Theorem submit_blank_text_rejected (f : form) (s : pystr) (d : db) :
  s ∈ required_text f → blank s →
  ∃ field,
    validate_input (kwargs_of f) = Raise (ValueError (cannot_be_empty field))
    ∧ submit_form f d = Some (Error (cannot_be_empty field), d).
Proof.
  intros Hin Hblank. apply is_empty_value_str in Hblank.
  assert (∃ field,
    validate_input (kwargs_of f) = Raise (ValueError (cannot_be_empty field)))
    as [field Hval].
  { destruct f as [n p q v dt|n p q c dt|n q st dt]; simpl in Hin;
      apply elem_of_cons in Hin as [->|Hin];
      try (apply list_elem_of_singleton in Hin as ->);
      try (by apply elem_of_nil in Hin);
      try (eexists; simpl; rewrite Hblank; reflexivity).
    - destruct (validate_input_raises [("ProductName"%string, PyStr n)]
                  "Vendor" _ [] Hblank) as (field & Hv & _). eauto.
    - destruct (validate_input_raises [("ProductName"%string, PyStr n)]
                  "Customer" _ [] Hblank) as (field & Hv & _). eauto. }
  exists field. split; [done|].
  destruct (submit_form_unfold f d) as [done' ->]. by apply submit_raises.
Qed.

Lemma submit_blank_text_rejected_witness :
  let f := PurchaseForm (str "Widget") price_9_99 3 (str "  ") jan15 in
  str "  " ∈ required_text f ∧ blank (str "  ")
  ∧ ∃ field,
      validate_input (kwargs_of f) = Raise (ValueError (cannot_be_empty field))
      ∧ submit_form f empty_db = Some (Error (cannot_be_empty field), empty_db).
Proof.
  assert (str "  " ∈ required_text
            (PurchaseForm (str "Widget") price_9_99 3 (str "  ") jan15)) as Hin.
  { right. left. }
  assert (blank (str "  ")) as Hblank by (repeat constructor).
  split; [exact Hin|]. split; [exact Hblank|].
  exact (submit_blank_text_rejected _ _ empty_db Hin Hblank).
Defined.

(** C1, as stated, fails for [add_record] itself: called with an empty
    product name it raises nothing and the table has one row more. *)
Lemma add_record_accepts_blank_text :
  blank []
  ∧ ∃ d',
      add_record purchases
        [PyStr []; PyFloat float_one; PyInt 1; PyStr (str "v"); PyDate jan15]
        empty_db = Some (Ok PyNone, d')
      ∧ length (fetchall purchases empty_db) = 0%nat
      ∧ length (fetchall purchases d') = 1%nat.
Proof. split; [constructor|]. eexists. split_and!; reflexivity. Qed.

(** ** The result of [add_record] (C2) *)

(** The conversions that the embedding leaves out: a real for a text
    column, and a text that reads as a number for a numeric column. *)
Lemma apply_affinity_None a v :
  apply_affinity a v = None →
  (∃ f, v = SqlReal f ∧ a = TEXT)
  ∨ (∃ s, v = SqlText s ∧ a ≠ TEXT ∧ is_numeric_text s = true).
Proof.
  destruct v as [|z|f|s], a; simpl; try done;
    try (intros _; left; by eexists);
    destruct (is_numeric_text s) eqn:Hs; try done;
    intros _; right; by eexists.
Qed.

Lemma store_values_None cols vs :
  store_values cols vs = None →
  ∃ i col v,
    cols !! i = Some col ∧ vs !! i = Some v
    ∧ apply_affinity (affinity_of (col_type col)) v = None.
Proof.
  revert vs. induction cols as [|c cols IH]; intros [|v vs]; simpl; try done.
  destruct (apply_affinity _ v) as [v'|] eqn:Hv; simpl.
  - destruct (store_values cols vs) as [cells|] eqn:Hs; simpl; [done|].
    intros _. destruct (IH vs Hs) as (i & col & w & ? & ? & ?).
    by exists (S i), col, w.
  - intros _. by exists 0%nat, c, v.
Qed.

Lemma bind_all_lookup params vs i v :
  bind_all params = Ok vs → vs !! i = Some v →
  ∃ p, params !! i = Some p ∧ bind p = Ok v.
Proof.
  revert vs i. induction params as [|p ps IH]; intros vs i; simpl.
  - by intros [= <-].
  - destruct (bind p) as [w|] eqn:Hp; [|done].
    destruct (bind_all ps) as [ws|] eqn:Hps; [|done].
    intros [= <-]. destruct i as [|i]; simpl.
    + intros [= <-]. eauto.
    + intros Hv. by apply (IH ws).
Qed.

Lemma bind_real p f : bind p = Ok (SqlReal f) → p = PyFloat f.
Proof.
  destruct p as [|b|z|f0|s|dt|items]; simpl; try done.
  - by destruct (_ && _).
  - destruct (is_nan f0); [done|]. by intros [= ->].
  - by destruct (find_surrogates 0 s) as [[? ?]|].
Qed.

Lemma bind_numeric_text p s :
  bind p = Ok (SqlText s) → is_numeric_text s = true → p = PyStr s.
Proof.
  destruct p as [|b|z|f0|s0|dt|items]; simpl; try done.
  - by destruct (_ && _).
  - by destruct (is_nan f0).
  - destruct (find_surrogates 0 s0) as [[? ?]|]; [done|]. by intros [= ->].
  - intros [= <-]. by rewrite isoformat_not_numeric.
Qed.

(** C2, as the code has it: [add_record] has no return statement.  A call
    that succeeds evaluates to [None], not to an id; the id the store
    generated is the rowid of the one row the table has gained.  A call that
    raises leaves the store as it was.  The embedding has a result for every
    call but those that give a float for a text column or a [str] that reads
    as a number for a numeric column. *)
Theorem add_record_returns_none (t : table) (data : list pyval) (d : db) :
  match add_record t data d with
  | Some (Ok v, d') =>
      v = PyNone
      ∧ ∃ rowid r,
          new_rowid (get_table t d) = Some rowid
          ∧ rowids t d' = rowids t d ++ [rowid]
          ∧ fetchall t d' = fetchall t d ++ [PyInt rowid :: r]
  | Some (Raise e, d') => d' = d
  | None =>
      ∃ i col p,
        schema t !! i = Some col ∧ data !! i = Some p
        ∧ ((∃ f, p = PyFloat f ∧ col_type col = TEXT_t)
           ∨ (∃ s, p = PyStr s ∧ col_type col ≠ TEXT_t
                   ∧ is_numeric_text s = true))
  end.
Proof.
  destruct (add_record t data d) as [[[v|e] d']|] eqn:Hadd.
  - apply add_record_ok in Hadd as (-> & u & Hex).
    apply execute_insert_ok in Hex
      as (vs & rowid & cells & _ & _ & Hid & _ & _ & ->).
    split; [done|]. exists rowid, (py_of_sql <$> cells).
    unfold rowids, fetchall. rewrite get_set_table. simpl.
    by rewrite !fmap_app.
  - by apply add_record_raise in Hadd.
  - unfold add_record, execute_insert in Hadd.
    destruct (negb _); [done|].
    destruct (bind_all data) as [vs|e] eqn:Hvs; [|done].
    destruct (new_rowid _); [|done].
    destruct (store_values _ vs) as [cells|] eqn:Hcells;
      [simpl in Hadd; by destruct (any_violation _ _)|].
    apply store_values_None in Hcells as (i & col & v & Hcol & Hv & Haff).
    destruct (bind_all_lookup _ _ _ _ Hvs Hv) as (p & Hp & Hb).
    exists i, col, p. split_and!; [done|done|].
    apply apply_affinity_None in Haff as [(f & -> & Ha)|(s & -> & Ha & Hn)].
    + left. exists f. split; [by apply bind_real|]. by destruct (col_type col).
    + right. exists s. split_and!; [by apply bind_numeric_text| |done].
      intros Ht. by rewrite Ht in Ha.
Qed.

(** An insert into a table that has a row: the call evaluates to [None]
    and the new row has the id 2. *)
Example add_record_second_order :
  (add_record orders gadget_order one_order
     ≫= λ '(v, d), Some (v, rowids orders d))
  = Some (Ok PyNone, [1; 2]).
Proof. reflexivity. Qed.

(** An integer given as a price is stored as a real. *)
Example int_price_stored_as_real :
  (add_record purchases
     [PyStr (str "Widget"); PyInt 5; PyInt 3; PyStr (str "Acme Co"); PyDate jan15]
     empty_db
     ≫= λ '(v, d), Some (v, fetchall purchases d))
  = Some (Ok PyNone,
          [[PyInt 1; PyStr (str "Widget");
            PyFloat (S754_finite false 5629499534213120 (-50)); PyInt 3;
            PyStr (str "Acme Co"); PyStr (str "2024-01-15")]]).
Proof. reflexivity. Qed.

(** C2, as stated, fails: the first insert gets the id 1 and the call
    evaluates to [None]. *)
Lemma add_record_does_not_return_id :
  ∃ d',
    add_record purchases widget_purchase empty_db = Some (Ok PyNone, d')
    ∧ rowids purchases d' = [1]
    ∧ PyNone ≠ PyInt 1.
Proof. eexists. split_and!; [reflexivity|reflexivity|discriminate]. Qed.

(** ** Inserts that the constraints refuse (C3) *)

Lemma bind_int_inv z v : bind (PyInt z) = Ok v → in_int64 z.
Proof.
  simpl. destruct ((min_int64 <=? z) && (z <=? max_int64)) eqn:Hz; [|done].
  intros _. apply andb_true_iff in Hz as [?%Z.leb_le ?%Z.leb_le]. by split.
Qed.

(** The tuple of a form is bound when its quantity fits 64 bits and its
    texts can be encoded; otherwise the first value that cannot be bound
    raises [OverflowError] or [UnicodeEncodeError]. *)
Lemma bind_all_form_raise (f : form) :
  ¬ (in_int64 (quantity_of f) ∧ encodable_form f) →
  ∃ e, bind_all (data_of f) = Raise e
       ∧ (e = OverflowError ∨ ∃ s start stop, e = UnicodeEncodeError s start stop).
Proof.
  intros Hn. unfold encodable_form in Hn.
  destruct f as [n p q v dt|n p q v dt|n q v dt]; simpl in Hn;
    unfold data_of, bind_all;
    (destruct (bind (PyStr n)) as [?|e1] eqn:H1;
     [apply bind_str_inv in H1 as [Hn1 ->]
     |simpl in H1; destruct (find_surrogates 0 n) as [[? ?]|]; simplify_eq;
      eexists; split; [reflexivity|right; eauto]]);
    simpl (bind (PyFloat _));
    (destruct (bind (PyInt q)) as [?|e2] eqn:H2;
     [apply bind_int_inv in H2
     |simpl in H2; destruct (_ && _); simplify_eq;
      eexists; split; [reflexivity|by left]]);
    (destruct (bind (PyStr v)) as [?|e3] eqn:H3;
     [apply bind_str_inv in H3 as [Hn3 ->]
     |simpl in H3; destruct (find_surrogates 0 v) as [[? ?]|]; simplify_eq;
      eexists; split; [reflexivity|right; eauto]]);
    (destruct Hn; split; [done|];
     apply Forall_cons; split; [done|];
     apply Forall_cons; split; [done|constructor]).
Qed.

Lemma add_record_bind_raise t data d e :
  length data = length (schema t) → bind_all data = Raise e →
  add_record t data d = Some (Raise e, d).
Proof.
  intros Hlen Hb. unfold add_record, execute_insert.
  by rewrite Hlen, Nat.eqb_refl, Hb.
Qed.

(** A table without a rowid left refuses the insert before any constraint
    is looked at. *)
Lemma add_record_table_full t data d vs :
  length data = length (schema t) → bind_all data = Ok vs →
  ¬ has_room (get_table t d) →
  add_record t data d = Some (Raise OperationalError, d).
Proof.
  intros Hlen Hb Hroom%new_rowid_None. unfold add_record, execute_insert.
  by rewrite Hlen, Nat.eqb_refl, Hb, Hroom.
Qed.

Lemma data_of_length f : length (data_of f) = length (schema (table_of f)).
Proof. by destruct f. Qed.

(** C3, as the code has it: the tuple of a form whose price is below zero
    or whose quantity is zero or less makes [add_record] raise, and the
    store, with every table and row, is what it was.  The exception is
    [sqlite3.IntegrityError], the refusal by a constraint, when the
    statement gets as far as the constraints: the quantity is an integer
    that SQLite can hold and the texts can be encoded (the values are bound),
    and the table has a rowid left. *)
Theorem add_record_rejects_bad_price_or_quantity (f : form) (d : db) :
  (∃ p, price_of f = Some p ∧ negative p) ∨ quantity_of f ≤ 0 →
  ∃ e,
    add_record (table_of f) (data_of f) d = Some (Raise e, d)
    ∧ (in_int64 (quantity_of f) → encodable_form f →
       has_room (get_table (table_of f) d) → e = IntegrityError).
Proof.
  intros Hbad.
  destruct (decide (in_int64 (quantity_of f) ∧ encodable_form f))
    as [[Hq Henc]|Hn].
  - destruct (decide (has_room (get_table (table_of f) d))) as [Hroom|Hroom].
    + exists IntegrityError. split; [|done].
      rewrite (add_record_form f d Hq Henc Hroom).
      by rewrite (violation_of_bad_form f Hbad).
    + exists OperationalError.
      destruct (store_form f Hq Henc) as (vs & Hvs & _). split; [|done].
      by eapply add_record_table_full; [apply data_of_length|..].
  - destruct (bind_all_form_raise f Hn) as (e & Hb & He).
    exists e. split; [|tauto].
    by apply add_record_bind_raise; [apply data_of_length|].
Qed.

Lemma add_record_rejects_bad_price_or_quantity_witness :
  let f := OrderForm (str "Gadget") 0 (str "Pending") jan15 in
  ((∃ p, price_of f = Some p ∧ negative p) ∨ quantity_of f ≤ 0)
  ∧ ∃ e,
      add_record (table_of f) (data_of f) one_order = Some (Raise e, one_order)
      ∧ (in_int64 (quantity_of f) → encodable_form f →
         has_room (get_table (table_of f) one_order) → e = IntegrityError).
Proof.
  set (f := OrderForm (str "Gadget") 0 (str "Pending") jan15).
  assert ((∃ p, price_of f = Some p ∧ negative p) ∨ quantity_of f ≤ 0) as Hbad
    by (right; simpl; lia).
  split; [exact Hbad|].
  exact (add_record_rejects_bad_price_or_quantity f one_order Hbad).
Defined.

Example negative_price_refused :
  add_record purchases
    [PyStr (str "Widget"); PyFloat float_minus_one; PyInt 3; PyStr (str "Acme Co");
     PyDate jan15] one_order
  = Some (Raise IntegrityError, one_order).
Proof. reflexivity. Qed.

Example quantity_zero_refused :
  add_record orders
    [PyStr (str "Gadget"); PyInt 0; PyStr (str "Pending"); PyDate jan15] empty_db
  = Some (Raise IntegrityError, empty_db).
Proof. reflexivity. Qed.

(** A text with a surrogate is refused when it is bound, before the
    quantity is looked at. *)
Example surrogate_text_refused :
  add_record orders
    [PyStr [55296%N]; PyInt 0; PyStr (str "Pending"); PyDate jan15] one_order
  = Some (Raise (UnicodeEncodeError [55296%N] 0 1), one_order).
Proof. reflexivity. Qed.

(** C3, as stated, fails for a quantity that SQLite's INTEGER cannot hold:
    it is below zero, and the insert is refused when the quantity is bound,
    with [OverflowError] and not by a constraint. *)
Lemma quantity_out_of_range :
  let f := OrderForm (str "Gadget") (- 2 ^ 63 - 1) (str "Pending") jan15 in
  quantity_of f ≤ 0
  ∧ add_record (table_of f) (data_of f) one_order
    = Some (Raise OverflowError, one_order)
  ∧ OverflowError ≠ IntegrityError.
Proof. split_and!; [simpl; lia|reflexivity|discriminate]. Qed.

(** ** Insert, then fetch (C4) *)

Lemma same_value_form (f : form) :
  (∀ p, price_of f = Some p → is_nan p = false) →
  Forall2 same_value (data_of f) (fetched_of f).
Proof.
  intros Hp. destruct f; simpl; repeat constructor; simpl;
    apply stored_real_eq, Hp; done.
Qed.

Lemma fetched_of_stored (f : form) :
  (∀ p, price_of f = Some p → is_nan p = false) →
  py_of_sql <$> stored_of f = fetched_of f.
Proof.
  intros Hp. destruct f; simpl; try done; by rewrite (Hp _ eq_refl).
Qed.

Lemma fetchall_ids_below t d rowid :
  Forall (λ r : row, r.1 < rowid) (rows (get_table t d)) →
  Forall (λ r, ∃ z, id_of r = Some z ∧ z < rowid) (fetchall t d).
Proof.
  intros H. unfold fetchall. apply Forall_fmap.
  eapply Forall_impl; [exact H|]. simpl. eauto.
Qed.

(** C4, as the code has it: for the tuple of a form with valid values
    (values the constraints accept, a quantity within 64 bits, texts that
    UTF-8 encodes), [add_record] succeeds and [fetch_data] then returns the
    rows it returned before followed by one new row.  The new row holds the
    submitted texts and numbers (equal for Python's [==]) and, for the date,
    its ISO 8601 text; its id is above the id of every row of the table and
    above every id the table has handed out, and the other tables are as
    before. *)
Theorem add_then_fetch (f : form) (d : db) :
  valid_form f →
  encodable_form f →
  has_room (get_table (table_of f) d) →
  ∃ rowid d',
    add_record (table_of f) (data_of f) d = Some (Ok PyNone, d')
    ∧ fetch_data (table_of f) d'
      = Frame (df_columns (fetch_data (table_of f) d))
          (df_rows (fetch_data (table_of f) d) ++ [PyInt rowid :: fetched_of f])
    ∧ Forall2 same_value (data_of f) (fetched_of f)
    ∧ Forall (λ r, ∃ z, id_of r = Some z ∧ z < rowid)
        (df_rows (fetch_data (table_of f) d))
    ∧ seq (get_table (table_of f) d) < rowid
    ∧ ∀ t, t ≠ table_of f → fetch_data t d' = fetch_data t d.
Proof.
  intros Hvalid Henc Hroom.
  pose proof Hvalid as (Hq & _ & Hp & _).
  assert (∀ p, price_of f = Some p → is_nan p = false) as Hnan.
  { intros p Hf. by destruct (stored_real_not_negative p (Hp p Hf)). }
  set (ts := get_table (table_of f) d) in *.
  set (rowid := Z.max (seq ts) (largest_rowid (rows ts)) + 1).
  assert (new_rowid ts = Some rowid) as Hid by by apply new_rowid_Some.
  apply new_rowid_fresh in Hid as (Hseq & _ & Hfresh).
  eexists rowid, _. split_and!.
  - rewrite (add_record_form f d Hq Henc Hroom).
    rewrite (no_violation_of_valid_form f Hvalid). reflexivity.
  - unfold fetch_data, fetchall. simpl. rewrite get_set_table. simpl.
    fold ts. rewrite fmap_app. simpl. by rewrite (fetched_of_stored f Hnan).
  - by apply same_value_form.
  - by apply fetchall_ids_below.
  - lia.
  - intros t Hne. unfold fetch_data, fetchall.
    by rewrite get_set_table_ne.
Qed.

Lemma add_then_fetch_witness :
  let f := OrderForm (str "Widget") 3 (str "Pending") jan15 in
  valid_form f
  ∧ encodable_form f
  ∧ has_room (get_table (table_of f) one_order)
  ∧ df_rows (fetch_data (table_of f) one_order)
    = [[PyInt 1; PyStr (str "Gadget"); PyInt 2; PyStr (str "Pending");
        PyStr (str "2024-02-01")]]
  ∧ ∃ rowid d',
      add_record (table_of f) (data_of f) one_order = Some (Ok PyNone, d')
      ∧ fetch_data (table_of f) d'
        = Frame (df_columns (fetch_data (table_of f) one_order))
            (df_rows (fetch_data (table_of f) one_order)
               ++ [PyInt rowid :: fetched_of f])
      ∧ Forall2 same_value (data_of f) (fetched_of f)
      ∧ Forall (λ r, ∃ z, id_of r = Some z ∧ z < rowid)
          (df_rows (fetch_data (table_of f) one_order))
      ∧ seq (get_table (table_of f) one_order) < rowid
      ∧ ∀ t, t ≠ table_of f → fetch_data t d' = fetch_data t one_order.
Proof.
  set (f := OrderForm (str "Widget") 3 (str "Pending") jan15).
  assert (valid_form f) as Hvalid.
  { unfold valid_form, in_int64, min_int64, max_int64. simpl.
    split_and!; [lia|lia|lia|done|]. intros s [= <-]. by left. }
  assert (encodable_form f) as Henc by (repeat constructor).
  assert (has_room (get_table (table_of f) one_order)) as Hroom
    by (unfold has_room, max_int64; simpl; lia).
  split_and!; [exact Hvalid|exact Henc|exact Hroom|reflexivity|].
  exact (add_then_fetch f one_order Hvalid Henc Hroom).
Defined.

(** C4, as stated, fails on the date: the scenario of the specification
    submits a [date] and fetches the text ["2024-01-15"] for it. *)
Lemma fetched_date_is_text :
  widget_purchase !! 4%nat = Some (PyDate jan15)
  ∧ ∃ d',
      add_record purchases widget_purchase empty_db = Some (Ok PyNone, d')
      ∧ df_rows (fetch_data purchases d')
        = [[PyInt 1; PyStr (str "Widget"); PyFloat price_9_99; PyInt 3;
            PyStr (str "Acme Co"); PyStr (str "2024-01-15")]]
      ∧ PyStr (str "2024-01-15") ≠ PyDate jan15.
Proof.
  split; [reflexivity|]. eexists.
  split_and!; [reflexivity|reflexivity|discriminate].
Qed.

(** ** What [fetch_data] returns (C5) *)

(** Two inserts and an update, from the empty store. *)
Lemma reachable_two_orders :
  ∃ d,
    reachable d
    ∧ fetchall orders d
      = [[PyInt 1; PyStr (str "Gadget"); PyInt 2; PyStr (str "Completed");
          PyStr (str "2024-02-01")];
         [PyInt 2; PyStr (str "Gadget"); PyInt 2; PyStr (str "Pending");
          PyStr (str "2024-02-01")]].
Proof.
  pose proof (reachable_run (AddRecord orders gadget_order) _ _
                reachable_empty eq_refl) as H1.
  pose proof (reachable_run (AddRecord orders gadget_order) _ _ H1 eq_refl)
    as H2.
  pose proof (reachable_run
                (UpdateRecordStatus orders (PyInt 1) (PyStr (str "Completed")))
                _ _ H2 eq_refl) as H3.
  eexists. split; [exact H3|reflexivity].
Defined.

Lemma reachable_one_order : reachable one_order.
Proof.
  exact (reachable_run (AddRecord orders gadget_order) empty_db one_order
           reachable_empty eq_refl).
Defined.

(** In a table that keeps the invariant the recorded largest rowid is the
    largest. *)
Lemma wf_max_seq t ts :
  wf_table t ts → Z.max (seq ts) (largest_rowid (rows ts)) = seq ts.
Proof.
  intros [_ Hids Hseq _].
  assert (largest_rowid (rows ts) ≤ seq ts); [|lia].
  apply largest_rowid_le; [lia|].
  eapply Forall_impl; [exact Hids|]. simpl. lia.
Qed.

(** The tuples of forms with valid values, added one after the other, are
    fetched after the rows that were there, in the order in which they were
    added, with the ids that follow the largest id of the table. *)
Lemma add_records_fetchall (fs : list form) (d : db) :
  wf_db d →
  Forall (λ f, valid_form f ∧ encodable_form f) fs →
  (∀ t, seq (get_table t d) + Z.of_nat (length fs) ≤ max_int64) →
  ∃ d',
    add_records fs d = Some d'
    ∧ ∀ t,
        fetchall t d'
        = fetchall t d
          ++ numbered (seq (get_table t d) + 1)
               (fetched_of <$> filter (λ f, table_of f = t) fs).
Proof.
  revert d. induction fs as [|f fs IH]; intros d Hd Hfs Hroom.
  - exists d. split; [done|]. intros t. simpl. by rewrite app_nil_r.
  - apply Forall_cons in Hfs as [[Hvalid Henc] Hfs].
    pose proof Hvalid as (Hq & _ & Hp & _).
    assert (∀ p, price_of f = Some p → is_nan p = false) as Hnan.
    { intros p Hf. by destruct (stored_real_not_negative p (Hp p Hf)). }
    pose proof (wf_max_seq _ _ (Hd (table_of f))) as Hmax.
    assert (has_room (get_table (table_of f) d)) as Hr.
    { unfold has_room. rewrite Hmax. specialize (Hroom (table_of f)).
      simpl length in Hroom. lia. }
    pose proof (add_record_form f d Hq Henc Hr) as Hadd. cbv zeta in Hadd.
    rewrite (no_violation_of_valid_form f Hvalid), Hmax in Hadd.
    pose proof (add_record_wf _ _ _ _ _ Hd Hadd) as Hd1.
    simpl add_records. rewrite Hadd. simpl.
    edestruct (IH _ Hd1 Hfs) as (d' & Hrun & Hfetch).
    { intros t. specialize (Hroom t). simpl length in Hroom.
      destruct (decide (table_of f = t)) as [<-|Hne].
      - rewrite get_set_table. simpl. lia.
      - rewrite get_set_table_ne by done. lia. }
    exists d'. split; [done|]. intros t. rewrite Hfetch.
    destruct (decide (table_of f = t)) as [<-|Hne].
    + rewrite filter_cons_True by done. unfold fetchall at 1.
      rewrite get_set_table. simpl. rewrite fmap_app, <-app_assoc. simpl.
      by rewrite (fetched_of_stored f Hnan).
    + rewrite filter_cons_False by done. unfold fetchall at 1.
      by rewrite !get_set_table_ne by done.
Qed.

(** C5: [fetch_data] returns a frame whose columns are [id] and the columns
    of the table in the order of the schema; every row has a value for each
    column, and the ids ascend strictly from one row to the next.  Its rows
    are the rows that were inserted, in the order of their insertion: after
    the tuples of forms with valid values have been added, it returns the
    rows it returned before, followed by one row for each tuple that went to
    this table, in the order of the calls, each with the values that were
    submitted (the date as its ISO 8601 text) behind the next id of the
    table. *)
Theorem fetch_data_all_rows_in_id_order (t : table) (d : db) (fs : list form) :
  reachable d →
  Forall (λ f, valid_form f ∧ encodable_form f) fs →
  (∀ t', seq (get_table t' d) + Z.of_nat (length fs) ≤ max_int64) →
  df_columns (fetch_data t d) = "id"%string :: (col_name <$> schema t)
  ∧ Forall (λ r, length r = length (df_columns (fetch_data t d)))
      (df_rows (fetch_data t d))
  ∧ Forall2 (λ r z, id_of r = Some z) (df_rows (fetch_data t d)) (rowids t d)
  ∧ StronglySorted Z.lt (rowids t d)
  ∧ Forall (λ z, 1 ≤ z ≤ seq (get_table t d)) (rowids t d)
  ∧ ∃ d',
      add_records fs d = Some d'
      ∧ df_rows (fetch_data t d')
        = df_rows (fetch_data t d)
          ++ numbered (seq (get_table t d) + 1)
               (fetched_of <$> filter (λ f, table_of f = t) fs).
Proof.
  intros Hd Hfs Hroom. apply reachable_wf in Hd.
  destruct (Hd t) as [Hsorted Hids _ Harity].
  split_and!; try done.
  - simpl. unfold fetchall, description. apply Forall_fmap.
    eapply Forall_impl; [exact Harity|]. simpl. intros r Hr.
    by rewrite !length_fmap, Hr.
  - simpl. unfold fetchall, rowids. apply Forall2_fmap.
    by apply Forall_Forall2_diag, Forall_true.
  - unfold rowids. by apply Forall_fmap.
  - destruct (add_records_fetchall fs d Hd Hfs Hroom) as (d' & Hrun & Hfetch).
    exists d'. split; [done|]. apply Hfetch.
Qed.

Lemma fetch_data_all_rows_in_id_order_witness :
  let fs := [OrderForm (str "Widget") 3 (str "Completed") jan15;
             PurchaseForm (str "Widget") price_9_99 3 (str "Acme Co") jan15;
             OrderForm (str "Bolt") 7 (str "Pending") (Date 2024 3 9)] in
  reachable one_order
  ∧ Forall (λ f, valid_form f ∧ encodable_form f) fs
  ∧ (∀ t', seq (get_table t' one_order) + Z.of_nat (length fs) ≤ max_int64)
  ∧ df_columns (fetch_data orders one_order)
    = "id"%string :: (col_name <$> schema orders)
  ∧ Forall (λ r, length r = length (df_columns (fetch_data orders one_order)))
      (df_rows (fetch_data orders one_order))
  ∧ Forall2 (λ r z, id_of r = Some z) (df_rows (fetch_data orders one_order))
      (rowids orders one_order)
  ∧ StronglySorted Z.lt (rowids orders one_order)
  ∧ Forall (λ z, 1 ≤ z ≤ seq (get_table orders one_order))
      (rowids orders one_order)
  ∧ ∃ d',
      add_records fs one_order = Some d'
      ∧ df_rows (fetch_data orders d')
        = df_rows (fetch_data orders one_order)
          ++ numbered (seq (get_table orders one_order) + 1)
               (fetched_of <$> filter (λ f, table_of f = orders) fs).
Proof.
  set (fs := [OrderForm (str "Widget") 3 (str "Completed") jan15;
              PurchaseForm (str "Widget") price_9_99 3 (str "Acme Co") jan15;
              OrderForm (str "Bolt") 7 (str "Pending") (Date 2024 3 9)]).
  assert (Forall (λ f, valid_form f ∧ encodable_form f) fs) as Hfs.
  { repeat (apply Forall_cons; split; [|]); [| | |constructor];
      (split; [|repeat constructor]);
      unfold valid_form, in_int64, min_int64, max_int64; simpl;
      (split_and!; [lia|lia|lia| |]); try done.
    - intros s [= <-]. by right.
    - by intros p [= <-].
    - intros s [= <-]. by left. }
  assert (∀ t', seq (get_table t' one_order) + Z.of_nat (length fs) ≤ max_int64)
    as Hroom by (intros []; unfold max_int64; simpl; lia).
  split; [exact reachable_one_order|]. split; [exact Hfs|].
  split; [exact Hroom|].
  exact (fetch_data_all_rows_in_id_order orders one_order fs
           reachable_one_order Hfs Hroom).
Defined.

(** What [fetch_data] returns after the three calls above. *)
Example fetch_after_three :
  (add_records
     [OrderForm (str "Widget") 3 (str "Completed") jan15;
      PurchaseForm (str "Widget") price_9_99 3 (str "Acme Co") jan15;
      OrderForm (str "Bolt") 7 (str "Pending") (Date 2024 3 9)] one_order
     ≫= λ d, Some (fetch_data orders d))
  = Some (Frame ["id"; "product_name"; "quantity"; "status"; "order_date"]%string
      [[PyInt 1; PyStr (str "Gadget"); PyInt 2; PyStr (str "Pending");
        PyStr (str "2024-02-01")];
       [PyInt 2; PyStr (str "Widget"); PyInt 3; PyStr (str "Completed");
        PyStr (str "2024-01-15")];
       [PyInt 3; PyStr (str "Bolt"); PyInt 7; PyStr (str "Pending");
        PyStr (str "2024-03-09")]]).
Proof. reflexivity. Qed.

Example fetch_empty :
  fetch_data sales empty_db
  = Frame ["id"; "product_name"; "price"; "quantity"; "customer"; "sale_date"]%string
      [].
Proof. reflexivity. Qed.

(** ** Updating the status of an order (C6, C7) *)

(** The update of the fetched tuples that corresponds to the statement: the
    tuple with the id gets the status, which is the field after [id],
    [product_name] and [quantity]. *)
Lemma fetchall_update_status (id : Z) (s : pystr) (rs : list row) :
  (λ r : row, PyInt r.1 :: (py_of_sql <$> r.2))
    <$> ((λ r : row,
            if bool_decide (id = r.1)
            then (r.1, <[2%nat := SqlText s]> r.2) else r) <$> rs)
  = (λ r, if bool_decide (id_of r = Some id)
          then <[3%nat := PyStr s]> r else r)
      <$> ((λ r : row, PyInt r.1 :: (py_of_sql <$> r.2)) <$> rs).
Proof.
  rewrite <-!list_fmap_compose. apply list_fmap_ext. intros _ [rowid cells] _.
  simpl. destruct (decide (id = rowid)) as [->|Hne].
  - rewrite !bool_decide_eq_true_2 by done. simpl.
    by rewrite list_fmap_insert.
  - rewrite !bool_decide_eq_false_2; [done| |done]. by intros [= ->].
Qed.

(** C6: for the id of an order of the table and a status of the
    enumeration, [update_record_status] succeeds; the order then has that
    status, every other field of every row and the other tables are as
    before, and the same update once more gives the same store. *)
Theorem update_status_sets_and_is_idempotent (d : db) (id : Z) (s : pystr) :
  reachable d →
  id ∈ rowids orders d →
  s = str "Pending" ∨ s = str "Completed" →
  ∃ d',
    update_record_status orders (PyInt id) (PyStr s) d = Some (Ok PyNone, d')
    ∧ fetchall orders d'
      = (λ r, if bool_decide (id_of r = Some id)
              then <[3%nat := PyStr s]> r else r) <$> fetchall orders d
    ∧ (∃ r, r ∈ fetchall orders d' ∧ id_of r = Some id
            ∧ r !! 3%nat = Some (PyStr s))
    ∧ (∀ t, t ≠ orders → get_table t d' = get_table t d)
    ∧ update_record_status orders (PyInt id) (PyStr s) d' = Some (Ok PyNone, d').
Proof.
  intros Hd Hin Hs. apply reachable_wf in Hd.
  destruct (Hd orders) as [_ Hids Hseq Harity].
  assert (in_int64 id) as Hid.
  { unfold rowids in Hin. apply list_elem_of_fmap in Hin as (r & -> & Hr).
    apply (proj1 (Forall_forall _ _) Hids) in Hr.
    unfold in_int64, min_int64, max_int64 in *. simpl in Hr, Hseq. lia. }
  assert (s = str "Pending" ∨ s = str "Completed" ∨ id ∉ rowids orders d)
    as Hs' by tauto.
  assert (encodable s) as Henc
    by (destruct Hs as [-> | ->]; repeat constructor).
  exists (with_status id s d). split_and!.
  - by apply update_order_status_accepted.
  - unfold fetchall. rewrite with_status_rows. apply fetchall_update_status.
  - unfold rowids in Hin.
    apply list_elem_of_fmap in Hin as ([rowid cells] & -> & Hr).
    pose proof (proj1 (Forall_forall _ _) Harity _ Hr) as Hlen. simpl in Hlen.
    exists (PyInt rowid :: (py_of_sql <$> <[2%nat := SqlText s]> cells)).
    split_and!; [|done|].
    + unfold fetchall. rewrite with_status_rows.
      apply list_elem_of_fmap. eexists (rowid, _). split; [done|].
      apply list_elem_of_fmap. exists (rowid, cells). split; [|done].
      simpl. by rewrite bool_decide_eq_true_2.
    + simpl. rewrite list_lookup_fmap, list_lookup_insert_eq by lia. done.
  - intros t Hne. by apply with_status_other_table.
  - rewrite <-(with_status_idemp id s d) at 2.
    apply update_order_status_accepted; [done|done|tauto].
Qed.

Lemma update_status_sets_and_is_idempotent_witness :
  let s := str "Completed" in
  reachable one_order
  ∧ 1 ∈ rowids orders one_order
  ∧ (s = str "Pending" ∨ s = str "Completed")
  ∧ ∃ d',
      update_record_status orders (PyInt 1) (PyStr s) one_order
      = Some (Ok PyNone, d')
      ∧ fetchall orders d'
        = (λ r, if bool_decide (id_of r = Some 1)
                then <[3%nat := PyStr s]> r else r) <$> fetchall orders one_order
      ∧ (∃ r, r ∈ fetchall orders d' ∧ id_of r = Some 1
              ∧ r !! 3%nat = Some (PyStr s))
      ∧ (∀ t, t ≠ orders → get_table t d' = get_table t one_order)
      ∧ update_record_status orders (PyInt 1) (PyStr s) d'
        = Some (Ok PyNone, d').
Proof.
  assert (1 ∈ rowids orders one_order) as Hin by (by left).
  assert (str "Completed" = str "Pending" ∨ str "Completed" = str "Completed")
    as Hs by (by right).
  split_and!; [exact reachable_one_order|exact Hin|exact Hs|].
  exact (update_status_sets_and_is_idempotent one_order 1 (str "Completed")
           reachable_one_order Hin Hs).
Defined.

(** A status outside the enumeration is refused for an order that exists. *)
Example update_status_refused :
  update_record_status orders (PyInt 1) (PyStr (str "Shipped")) one_order
  = Some (Raise IntegrityError, one_order).
Proof. reflexivity. Qed.

(** Only the orders table has a status. *)
Example update_status_wrong_table :
  update_record_status purchases (PyInt 1) (PyStr (str "Completed")) one_order
  = Some (Raise OperationalError, one_order).
Proof. reflexivity. Qed.

Lemma update_record_status_bind_raise record_id new_status d e :
  bind_all [new_status; record_id] = Raise e →
  update_record_status orders record_id new_status d = Some (Raise e, d).
Proof.
  intros Hb. unfold update_record_status, execute_update_status.
  rewrite status_column. by rewrite Hb.
Qed.

(** C7, as the code has it: for an id that no order of the table has,
    [update_record_status] leaves the store as it was, for every status
    text, of the enumeration or not.  It raises nothing exactly when its
    parameters are bound: the status is a text that UTF-8 encodes and the id
    is an integer that SQLite can hold. *)
Theorem update_status_unknown_id_noop (d : db) (id : Z) (s : pystr) :
  id ∉ rowids orders d →
  ∃ r,
    update_record_status orders (PyInt id) (PyStr s) d = Some (r, d)
    ∧ (r = Ok PyNone ↔ encodable s ∧ in_int64 id).
Proof.
  intros Hout.
  destruct (decide (encodable s)) as [Hs|Hs].
  - destruct (decide (in_int64 id)) as [Hid|Hid].
    + exists (Ok PyNone). split; [|done].
      rewrite update_order_status_accepted by tauto.
      by rewrite with_status_absent.
    + exists (Raise OverflowError). split; [|split; [done|tauto]].
      apply update_record_status_bind_raise. unfold bind_all.
      rewrite (bind_str s Hs). simpl.
      destruct ((min_int64 <=? id) && (id <=? max_int64)) eqn:Hz; [|done].
      destruct Hid. apply andb_true_iff in Hz as [?%Z.leb_le ?%Z.leb_le].
      by split.
  - destruct (bind_str_raise s Hs) as (start & stop & _ & Hb).
    exists (Raise (UnicodeEncodeError s start stop)).
    split; [|split; [done|tauto]].
    apply update_record_status_bind_raise. unfold bind_all. by rewrite Hb.
Qed.

Lemma update_status_unknown_id_noop_witness :
  (99 ∉ rowids orders one_order)
  ∧ ∃ r,
      update_record_status orders (PyInt 99) (PyStr (str "Completed")) one_order
      = Some (r, one_order)
      ∧ (r = Ok PyNone ↔ encodable (str "Completed") ∧ in_int64 99).
Proof.
  assert (99 ∉ rowids orders one_order) as Hout.
  { intros Hin. apply list_elem_of_singleton in Hin. discriminate. }
  split; [exact Hout|].
  exact (update_status_unknown_id_noop one_order 99 (str "Completed") Hout).
Defined.

Example update_status_unknown_id :
  update_record_status orders (PyInt 99) (PyStr (str "Completed")) one_order
  = Some (Ok PyNone, one_order).
Proof. reflexivity. Qed.

(** C7, as stated, fails for an id that SQLite's INTEGER cannot hold: it
    matches no row, and the call raises [OverflowError] when the id is
    bound. *)
Lemma update_status_id_out_of_range :
  (2 ^ 63 ∉ rowids orders one_order)
  ∧ update_record_status orders (PyInt (2 ^ 63)) (PyStr (str "Completed"))
      one_order
    = Some (Raise OverflowError, one_order)
  ∧ Raise OverflowError ≠ Ok PyNone.
Proof.
  split_and!; [|reflexivity|discriminate].
  intros Hin. apply list_elem_of_singleton in Hin. discriminate.
Qed.

(** The status is bound before the id. *)
Example update_status_surrogate :
  update_record_status orders (PyInt (2 ^ 63)) (PyStr [56320%N; 57343%N])
    one_order
  = Some (Raise (UnicodeEncodeError [56320%N; 57343%N] 0 2), one_order).
Proof. reflexivity. Qed.

(** A real or a text that is an integer selects the order with that id. *)
Example update_status_real_id :
  update_record_status orders (PyFloat float_one) (PyStr (str "Completed"))
    one_order
  = update_record_status orders (PyInt 1) (PyStr (str "Completed")) one_order
  ∧ update_record_status orders (PyStr (str " 01 ")) (PyStr (str "Completed"))
      one_order
    = update_record_status orders (PyInt 1) (PyStr (str "Completed")) one_order.
Proof. split; reflexivity. Qed.

(** ** What the operations leave alone (C9) *)

Lemma bind_all_pair a b v k :
  bind_all [a; b] = Ok [v; k] → bind a = Ok v ∧ bind b = Ok k.
Proof.
  simpl. destruct (bind a); [|done]. destruct (bind b); [|done].
  by intros [= -> ->].
Qed.

(** [add_record] keeps every row where it is. *)
Lemma add_record_frame t data d r d' t' :
  add_record t data d = Some (r, d') →
  rows (get_table t' d) `prefix_of` rows (get_table t' d').
Proof.
  intros Hadd. destruct r as [v|e].
  - apply add_record_ok in Hadd as (_ & u & Hex).
    apply execute_insert_ok in Hex
      as (vs & rowid & cells & _ & _ & _ & _ & _ & ->).
    destruct (decide (t = t')) as [<-|Hne].
    + rewrite get_set_table. simpl. by apply prefix_app_r.
    + by rewrite get_set_table_ne.
  - by apply add_record_raise in Hadd as ->.
Qed.

(** C9: whatever the operation, every row of every table is afterwards
    where it was, with its id and as many cells; a cell that differs is the
    [status] of a row that an [update_record_status] on this table selected
    by its id. *)
Theorem only_status_changes (op : operation) (d d' : db) (t : table) (n : nat)
    (rowid : Z) (cells : list sqlval) :
  run op d = Some d' →
  rows (get_table t d) !! n = Some (rowid, cells) →
  ∃ cells',
    rows (get_table t d') !! n = Some (rowid, cells')
    ∧ length cells' = length cells
    ∧ ∀ i, cells' !! i ≠ cells !! i →
        col_name <$> schema t !! i = Some "status"%string
        ∧ ∃ record_id new_status k,
            op = UpdateRecordStatus t record_id new_status
            ∧ bind record_id = Ok k
            ∧ id_matches k rowid = Some true.
Proof.
  intros Hrun Hrow.
  assert (∀ t0 data r d0,
    add_record t0 data d = Some (r, d0) →
    ∃ cells', rows (get_table t d0) !! n = Some (rowid, cells')
      ∧ length cells' = length cells
      ∧ ∀ i, cells' !! i ≠ cells !! i →
          col_name <$> schema t !! i = Some "status"%string
          ∧ ∃ record_id new_status k,
              op = UpdateRecordStatus t record_id new_status
              ∧ bind record_id = Ok k
              ∧ id_matches k rowid = Some true) as Hadd.
  { intros t0 data r d0 H0. exists cells. split_and!; [|done|done].
    eapply prefix_lookup_Some; [exact Hrow|]. by eapply add_record_frame. }
  destruct op as [t0 data|t0 record_id new_status|t0|f]; simpl in Hrun.
  - destruct (add_record t0 data d) as [[r d0]|] eqn:H0; simplify_eq/=. eauto.
  - destruct (update_record_status t0 record_id new_status d) as [[r d0]|]
      eqn:H0; simplify_eq/=.
    destruct r as [v|e];
      [|apply update_record_status_raise in H0 as ->;
        exists cells; by split_and!].
    apply update_record_status_ok in H0 as (_ & u & Hex).
    apply execute_update_status_ok in Hex
      as (i & col & v' & k & rs & Hcol & Hbind & Hrs & ->).
    destruct (decide (t0 = t)) as [->|Hne];
      [|rewrite get_set_table_ne by done; exists cells; by split_and!].
    rewrite get_set_table. simpl.
    apply update_rows_ok in Hrs.
    destruct (Forall2_lookup_l _ _ _ _ _ Hrs Hrow)
      as ([rowid' cells'] & Hrow' & Hid & Hcells).
    simpl in Hid, Hcells. subst rowid'.
    exists cells'. split; [done|].
    destruct Hcells as [[= ->]|(Hhit & w & _ & _ & ->)]; [by split|].
    split; [by rewrite length_insert|].
    intros j Hj.
    destruct (decide (i = j)) as [<-|Hij];
      [|by rewrite list_lookup_insert_ne in Hj].
    apply list_find_Some in Hcol as (Hi & Hname & _).
    split; [by rewrite Hi; simpl; rewrite Hname|].
    apply bind_all_pair in Hbind as [_ Hk].
    by exists record_id, new_status, k.
  - simplify_eq. exists cells. by split_and!.
  - destruct (submit_form f d) as [[fb d0]|] eqn:H0; simplify_eq/=.
    apply submit_form_store in H0 as [->|[r H0]]; [|eauto].
    exists cells. by split_and!.
Qed.

Lemma only_status_changes_witness :
  let op := UpdateRecordStatus orders (PyInt 1) (PyStr (str "Completed")) in
  let cells := [SqlText (str "Gadget"); SqlInt 2; SqlText (str "Pending");
                SqlText (str "2024-02-01")] in
  ∃ d',
    run op one_order = Some d'
    ∧ rows (get_table orders one_order) !! 0%nat = Some (1, cells)
    ∧ ∃ cells',
        rows (get_table orders d') !! 0%nat = Some (1, cells')
        ∧ length cells' = length cells
        ∧ ∀ i, cells' !! i ≠ cells !! i →
            col_name <$> schema orders !! i = Some "status"%string
            ∧ ∃ record_id new_status k,
                op = UpdateRecordStatus orders record_id new_status
                ∧ bind record_id = Ok k
                ∧ id_matches k 1 = Some true.
Proof.
  eexists. split; [reflexivity|]. split; [reflexivity|].
  exact (only_status_changes
           (UpdateRecordStatus orders (PyInt 1) (PyStr (str "Completed")))
           one_order _ orders 0 1 _ eq_refl eq_refl).
Defined.

(** ** Values that [validate_input] refuses (C10) *)

(** C10, as the code has it: when an argument of [validate_input] is
    [None], a zero, [False], an empty container or another falsy value, the
    call raises [ValueError], and the message names the first argument, in
    call order, that line 76 refuses: every argument before the one named
    passes the test and the one named does not.  That argument comes no later
    than the falsy one, and is the falsy one when the arguments before it
    pass. *)
Theorem validate_input_rejects_falsy (before after : list (string * pyval))
    (field : string) (value : pyval) :
  truthy value = false →
  ∃ before' field' value' after',
    before ++ (field, value) :: after = before' ++ (field', value') :: after'
    ∧ Forall (λ kv : string * pyval, is_empty_value kv.2 = false) before'
    ∧ is_empty_value value' = true
    ∧ validate_input (before ++ (field, value) :: after)
      = Raise (ValueError (cannot_be_empty field'))
    ∧ (length before' ≤ length before)%nat
    ∧ (Forall (λ kv : string * pyval, is_empty_value kv.2 = false) before →
       before' = before ∧ field' = field).
Proof.
  intros Hfalsy%is_empty_value_falsy.
  destruct (validate_input_raises before field value after Hfalsy)
    as (f0 & Hraise & _).
  apply validate_input_raise_inv in Hraise
    as (before' & field' & value' & after' & Hl & Hacc & Hrej & _).
  assert (length before' ≤ length before)%nat as Hle.
  { destruct (decide (length before' ≤ length before)%nat) as [|Hgt]; [done|].
    assert (before' !! length before = Some (field, value)) as Hin.
    { rewrite <-(lookup_app_l before' ((field', value') :: after')) by lia.
      rewrite <-Hl. by apply list_lookup_middle. }
    apply (Forall_lookup_1 _ _ _ _ Hacc) in Hin. simpl in Hin. congruence. }
  exists before', field', value', after'. split_and!; try done.
  - rewrite Hl. by apply validate_input_first.
  - intros Hbefore.
    assert (length before' = length before) as Hlen.
    { destruct (decide (length before' = length before)) as [|Hne]; [done|].
      assert (before !! length before' = Some (field', value')) as Hin.
      { rewrite <-(lookup_app_l before ((field, value) :: after)) by lia.
        rewrite Hl. by apply list_lookup_middle. }
      apply (Forall_lookup_1 _ _ _ _ Hbefore) in Hin. simpl in Hin.
      congruence. }
    symmetry in Hl. apply app_inj_1 in Hl as [-> [= -> ->]]; done.
Qed.

Lemma validate_input_rejects_falsy_witness :
  let before := [("ProductName"%string, PyStr (str "Widget"))] in
  truthy (PyInt 0) = false
  ∧ ∃ before' field' value' after',
      before ++ ("Vendor"%string, PyInt 0) :: []
      = before' ++ (field', value') :: after'
      ∧ Forall (λ kv : string * pyval, is_empty_value kv.2 = false) before'
      ∧ is_empty_value value' = true
      ∧ validate_input (before ++ ("Vendor"%string, PyInt 0) :: [])
        = Raise (ValueError (cannot_be_empty field'))
      ∧ (length before' ≤ length before)%nat
      ∧ (Forall (λ kv : string * pyval, is_empty_value kv.2 = false) before →
         before' = before ∧ field' = "Vendor"%string).
Proof.
  split; [reflexivity|].
  exact (validate_input_rejects_falsy
           [("ProductName"%string, PyStr (str "Widget"))] [] "Vendor" (PyInt 0)
           eq_refl).
Defined.

Example falsy_values :
  Forall (λ v, validate_input [("Vendor"%string, v)]
               = Raise (ValueError "Vendor cannot be empty!"))
    [PyNone; PyBool false; PyInt 0; PyFloat (S754_zero false);
     PyFloat (S754_zero true); PyStr []; PyTuple []].
Proof. repeat constructor. Qed.

Example truthy_values :
  Forall (λ v, validate_input [("Vendor"%string, v)] = Ok PyNone)
    [PyBool true; PyInt 1; PyFloat S754_nan; PyStr (str "Acme Co");
     PyDate jan15; PyTuple [PyNone]].
Proof. repeat constructor. Qed.

(** C10, as stated, fails when an earlier argument is refused as well: the
    second argument is a zero, and the message names the first. *)
Lemma validate_input_names_first :
  truthy (PyInt 0) = false
  ∧ validate_input [("ProductName"%string, PyNone); ("Vendor"%string, PyInt 0)]
    = Raise (ValueError "ProductName cannot be empty!")
  ∧ validate_input [("ProductName"%string, PyNone); ("Vendor"%string, PyInt 0)]
    ≠ Raise (ValueError "Vendor cannot be empty!").
Proof. split_and!; [reflexivity|reflexivity|discriminate]. Qed.

(** * Further properties of the helpers *)

(** ** [validate_input] *)

Lemma not_blank_iff (s : pystr) :
  ¬ blank s ↔ ∃ c, c ∈ s ∧ is_space c = false.
Proof.
  unfold blank. induction s as [|c s IH].
  - split; [intros H; destruct H; constructor|].
    intros (c & Hc & _). by apply elem_of_nil in Hc.
  - rewrite Forall_cons. destruct (is_space c) eqn:Hc.
    + split.
      * intros H. destruct IH as [IH _].
        destruct IH as (c' & Hin & Hc'); [tauto|].
        exists c'. split; [by right|done].
      * intros (c' & [->|Hin]%elem_of_cons & Hc') [_ Hs]; [congruence|].
        apply IH; eauto.
    + split; [|intros _ [? _]; done].
      intros _. exists c. split; [by left|done].
Qed.

(** What line 76 accepts: a value that is truthy and that, when it is a
    string, holds a character that is no whitespace. *)
Lemma is_empty_value_false (v : pyval) :
  is_empty_value v = false
  ↔ truthy v = true ∧ ∀ s, v = PyStr s → ∃ c, c ∈ s ∧ is_space c = false.
Proof.
  split.
  - intros Hv. split.
    + unfold is_empty_value in Hv. apply orb_false_iff in Hv as [Hv _].
      by apply negb_false_iff in Hv.
    + intros s ->. apply not_blank_iff. intros Hs.
      apply is_empty_value_str in Hs. congruence.
  - intros [Ht Hs]. apply not_true_iff_false. intros Hv.
    destruct v; try (unfold is_empty_value in Hv; rewrite Ht in Hv; done).
    apply is_empty_value_str in Hv.
    apply (proj2 (not_blank_iff s)); eauto.
Qed.

(** [validate_input] returns (with [None]) exactly when every argument is
    truthy and every string argument holds a character that is no
    whitespace. *)
Theorem validate_input_ok_iff (kwargs : list (string * pyval)) :
  validate_input kwargs = Ok PyNone
  ↔ Forall (λ kv : string * pyval,
      truthy kv.2 = true
      ∧ ∀ s, kv.2 = PyStr s → ∃ c, c ∈ s ∧ is_space c = false) kwargs.
Proof.
  induction kwargs as [|[field value] kwargs IH]; simpl.
  - split; [constructor|done].
  - rewrite Forall_cons. simpl. rewrite <-is_empty_value_false, <-IH.
    destruct (is_empty_value value); split; try done.
    + by intros [? ?].
    + by intros [_ ?].
Qed.

(** [validate_input] raises exactly at the first argument that line 76
    refuses, and what it raises is the [ValueError] with the name of that
    argument followed by [" cannot be empty!"]. *)
Theorem validate_input_raise_iff (kwargs : list (string * pyval)) (e : exn) :
  validate_input kwargs = Raise e
  ↔ ∃ before field value after,
      kwargs = before ++ (field, value) :: after
      ∧ Forall (λ kv : string * pyval, is_empty_value kv.2 = false) before
      ∧ is_empty_value value = true
      ∧ e = ValueError (field +:+ " cannot be empty!").
Proof.
  split; [apply validate_input_raise_inv|].
  intros (before & field & value & after & -> & Hb & Hv & ->).
  by apply validate_input_first.
Qed.

(** ** [add_record] *)

Lemma stored_real_not_negative_inv p :
  is_nan p = false → SFleb float_zero (stored_real p) = true →
  SFleb float_zero p = true.
Proof. destruct p as [[]|[]| |[] m e]; done. Qed.

Lemma no_violation_valid_form (f : form) :
  in_int64 (quantity_of f) →
  any_violation (schema (table_of f)) (stored_of f) = false → valid_form f.
Proof.
  intros Hq Hv. unfold valid_form. split; [done|].
  destruct f as [n p q v dt|n p q c dt|n q st dt]; simpl in *;
    unfold violates in Hv; simpl in Hv.
  - destruct (is_nan p) eqn:Hnan; simpl in Hv; [done|].
    apply orb_false_iff in Hv as [Hp Hv]. apply negb_false_iff in Hp.
    apply orb_false_iff in Hv as [Hq' _]. apply negb_false_iff, Z.ltb_lt in Hq'.
    split_and!; [done| |done].
    intros p' [= <-]. by apply stored_real_not_negative_inv.
  - destruct (is_nan p) eqn:Hnan; simpl in Hv; [done|].
    apply orb_false_iff in Hv as [Hp Hv]. apply negb_false_iff in Hp.
    apply orb_false_iff in Hv as [Hq' _]. apply negb_false_iff, Z.ltb_lt in Hq'.
    split_and!; [done| |done].
    intros p' [= <-]. by apply stored_real_not_negative_inv.
  - apply orb_false_iff in Hv as [Hq' Hv]. apply negb_false_iff, Z.ltb_lt in Hq'.
    apply orb_false_iff in Hv as [Hs _].
    apply negb_false_iff, bool_decide_eq_true in Hs.
    split_and!; [done|done|].
    intros s [= <-]. rewrite !elem_of_cons, elem_of_nil in Hs. tauto.
Qed.

Lemma add_record_form_violation (f : form) (d : db) :
  in_int64 (quantity_of f) → encodable_form f →
  has_room (get_table (table_of f) d) →
  ¬ valid_form f →
  add_record (table_of f) (data_of f) d = Some (Raise IntegrityError, d).
Proof.
  intros Hq Henc Hroom Hf. rewrite (add_record_form f d Hq Henc Hroom).
  destruct (any_violation _ _) eqn:Hv; [done|].
  by apply (no_violation_valid_form f Hq) in Hv.
Qed.

(** For the tuple of a form whose values are bound (a quantity within 64
    bits, texts that UTF-8 encodes) and a table with a rowid left,
    [add_record] raises [IntegrityError] exactly when a value breaks a
    constraint of the schema (a price that is NaN or below zero, a quantity
    of zero or less, a status outside the enumeration), and inserts exactly
    when none does. *)
Theorem add_record_integrity_iff (f : form) (d : db) :
  in_int64 (quantity_of f) →
  encodable_form f →
  has_room (get_table (table_of f) d) →
  (add_record (table_of f) (data_of f) d = Some (Raise IntegrityError, d)
   ↔ ¬ valid_form f)
  ∧ ((∃ d', add_record (table_of f) (data_of f) d = Some (Ok PyNone, d'))
     ↔ valid_form f).
Proof.
  intros Hq Henc Hroom. rewrite (add_record_form f d Hq Henc Hroom).
  destruct (any_violation _ _) eqn:Hv.
  - assert (¬ valid_form f) as Hn.
    { intros Hf. apply no_violation_of_valid_form in Hf. congruence. }
    split; split; try done. by intros [d' ?].
  - apply (no_violation_valid_form f Hq) in Hv.
    split; split; try done. intros _. eauto.
Qed.

Lemma add_record_integrity_iff_witness :
  let f := OrderForm (str "Gadget") 2 (str "Shipped") jan15 in
  in_int64 (quantity_of f)
  ∧ encodable_form f
  ∧ has_room (get_table (table_of f) one_order)
  ∧ (add_record (table_of f) (data_of f) one_order
     = Some (Raise IntegrityError, one_order)
     ↔ ¬ valid_form f)
  ∧ ((∃ d', add_record (table_of f) (data_of f) one_order = Some (Ok PyNone, d'))
     ↔ valid_form f).
Proof.
  set (f := OrderForm (str "Gadget") 2 (str "Shipped") jan15).
  assert (in_int64 (quantity_of f)) as Hq
    by (unfold in_int64, min_int64, max_int64; simpl; lia).
  assert (encodable_form f) as Henc by (repeat constructor).
  assert (has_room (get_table (table_of f) one_order)) as Hroom
    by (unfold has_room, max_int64; simpl; lia).
  split; [exact Hq|]. split; [exact Henc|]. split; [exact Hroom|].
  exact (add_record_integrity_iff f one_order Hq Henc Hroom).
Defined.

(** ** [update_record_status] *)

(** Only the orders table has a [status] column: on the other tables the
    statement does not compile, whatever the id and the status. *)
Theorem update_status_other_tables_fail (t : table) (record_id new_status : pyval)
    (d : db) :
  t ≠ orders →
  update_record_status t record_id new_status d
  = Some (Raise OperationalError, d).
Proof. intros Ht. by destruct t. Qed.

Lemma update_status_other_tables_fail_witness :
  purchases ≠ orders
  ∧ update_record_status purchases (PyInt 1) (PyStr (str "Completed")) one_order
    = Some (Raise OperationalError, one_order).
Proof.
  assert (purchases ≠ orders) as Ht by discriminate.
  split; [exact Ht|].
  exact (update_status_other_tables_fail purchases (PyInt 1)
           (PyStr (str "Completed")) one_order Ht).
Defined.

(** The CHECK of the status guards updates as it guards inserts: for an
    order that exists, a status text other than ['Pending'] and
    ['Completed'] makes [update_record_status] raise, and the store is what
    it was.  The exception is [IntegrityError] when the text can be encoded;
    a text that cannot is refused when it is bound. *)
Theorem update_status_invalid_refused (d : db) (id : Z) (s : pystr) :
  in_int64 id →
  id ∈ rowids orders d →
  s ≠ str "Pending" → s ≠ str "Completed" →
  ∃ e,
    update_record_status orders (PyInt id) (PyStr s) d = Some (Raise e, d)
    ∧ (encodable s → e = IntegrityError).
Proof.
  intros Hid Hin Hp Hc. destruct (decide (encodable s)) as [Hs|Hs].
  - exists IntegrityError. split; [|done].
    rewrite (update_order_status d id s Hid Hs). cbv zeta.
    rewrite (bool_decide_eq_true_2 _ Hin), andb_true_r.
    destruct (violates _ (SqlText s)) eqn:Hv; [done|].
    apply status_accepted in Hv. tauto.
  - destruct (bind_str_raise s Hs) as (start & stop & _ & Hb).
    exists (UnicodeEncodeError s start stop). split; [|done].
    apply update_record_status_bind_raise. unfold bind_all. by rewrite Hb.
Qed.

Lemma update_status_invalid_refused_witness :
  let s := str "Shipped" in
  in_int64 1
  ∧ 1 ∈ rowids orders one_order
  ∧ s ≠ str "Pending" ∧ s ≠ str "Completed"
  ∧ ∃ e,
      update_record_status orders (PyInt 1) (PyStr s) one_order
      = Some (Raise e, one_order)
      ∧ (encodable s → e = IntegrityError).
Proof.
  assert (in_int64 1) as Hid by (unfold in_int64, min_int64, max_int64; lia).
  assert (1 ∈ rowids orders one_order) as Hin by (by left).
  assert (str "Shipped" ≠ str "Pending") as Hp by discriminate.
  assert (str "Shipped" ≠ str "Completed") as Hc by discriminate.
  split_and!; [exact Hid|exact Hin|exact Hp|exact Hc|].
  exact (update_status_invalid_refused one_order 1 (str "Shipped") Hid Hin Hp Hc).
Defined.

Lemma update_rows_rowids i col v k rs rs' :
  update_rows i col v k rs = Some (Ok rs') → rs'.*1 = rs.*1.
Proof.
  intros H%update_rows_ok.
  induction H as [|r r' ? ? [Hr _] _ IH]; simpl; [done|]. by f_equal.
Qed.

Lemma update_record_status_keeps t record_id new_status d r d' :
  update_record_status t record_id new_status d = Some (r, d') →
  ∀ t',
    rowids t' d' = rowids t' d
    ∧ seq (get_table t' d') = seq (get_table t' d)
    ∧ (t' ≠ orders → get_table t' d' = get_table t' d).
Proof.
  intros Hupd t'. destruct r as [v|e];
    [|by apply update_record_status_raise in Hupd as ->].
  apply update_record_status_ok in Hupd as (_ & u & Hex).
  apply execute_update_status_ok in Hex
    as (i & col & v' & k & rs & Hcol & _ & Hrs & ->).
  assert (t = orders) as -> by (by destruct t).
  destruct (decide (t' = orders)) as [->|Hne].
  - unfold rowids. rewrite get_set_table. simpl.
    split_and!; [by eapply update_rows_rowids|done|done].
  - unfold rowids. by rewrite get_set_table_ne.
Qed.

(** [update_record_status] with an integer id and a status text, on any of
    the three tables and any store: the call returns or raises, and it
    creates and deletes nothing.  Whatever the outcome, every table has
    afterwards the rows with the ids it had, in the same order, the next id
    to hand out is the same, and the purchases and the sales are
    untouched. *)
Theorem update_status_keeps_rows (t : table) (id : Z) (s : pystr) (d : db) :
  ∃ r d',
    update_record_status t (PyInt id) (PyStr s) d = Some (r, d')
    ∧ ∀ t',
        rowids t' d' = rowids t' d
        ∧ seq (get_table t' d') = seq (get_table t' d)
        ∧ (t' ≠ orders → get_table t' d' = get_table t' d).
Proof.
  assert (∃ r d', update_record_status t (PyInt id) (PyStr s) d = Some (r, d'))
    as (r & d' & Hupd).
  { destruct (decide (t = orders)) as [->|Hne];
      [|exists (Raise OperationalError), d; by destruct t].
    destruct (decide (encodable s)) as [Hs|Hs].
    - destruct (decide (in_int64 id)) as [Hid|Hid].
      + rewrite (update_order_status d id s Hid Hs). cbv zeta.
        destruct (_ && _); eauto.
      + exists (Raise OverflowError), d.
        apply update_record_status_bind_raise. unfold bind_all.
        rewrite (bind_str s Hs). simpl.
        destruct ((min_int64 <=? id) && (id <=? max_int64)) eqn:Hz; [|done].
        destruct Hid. apply andb_true_iff in Hz as [?%Z.leb_le ?%Z.leb_le].
        by split.
    - destruct (bind_str_raise s Hs) as (start & stop & _ & Hb).
      exists (Raise (UnicodeEncodeError s start stop)), d.
      apply update_record_status_bind_raise. unfold bind_all. by rewrite Hb. }
  exists r, d'. split; [done|]. by eapply update_record_status_keeps.
Qed.

(** ** Invariants of the reachable stores *)

(** A step of the program leaves the store, or is an insert that
    succeeded, or an update that succeeded. *)
Lemma run_cases op d d' :
  run op d = Some d' →
  d' = d
  ∨ (∃ t data u, execute_insert t data d = Some (Ok u, d'))
  ∨ (∃ t new_status record_id u,
        execute_update_status t new_status record_id d = Some (Ok u, d')).
Proof.
  assert (∀ t data r, add_record t data d = Some (r, d') →
    d' = d ∨ (∃ t data u, execute_insert t data d = Some (Ok u, d'))) as Hadd.
  { intros t data [v|e] H.
    - apply add_record_ok in H as (_ & u & Hex). right. eauto.
    - apply add_record_raise in H. by left. }
  destruct op as [t data|t record_id new_status|t|f]; simpl.
  - destruct (add_record t data d) as [[r d0]|] eqn:H; intros [= <-].
    destruct (Hadd _ _ _ H) as [?|?]; auto.
  - destruct (update_record_status _ _ _ d) as [[[v|e] d0]|] eqn:H;
      intros [= <-].
    + apply update_record_status_ok in H as (_ & u & Hex). right. right. eauto.
    + apply update_record_status_raise in H. by left.
  - intros [= <-]. by left.
  - destruct (submit_form f d) as [[fb d0]|] eqn:H; intros [= <-].
    apply submit_form_store in H as [->|[r H]]; [by left|].
    destruct (Hadd _ _ _ H) as [?|?]; auto.
Qed.

Lemma reachable_store_ind (P : db → Prop) :
  P empty_db →
  (∀ t data d u d',
     reachable d → P d → execute_insert t data d = Some (Ok u, d') → P d') →
  (∀ t new_status record_id d u d',
     reachable d → P d →
     execute_update_status t new_status record_id d = Some (Ok u, d') → P d') →
  ∀ d, reachable d → P d.
Proof.
  intros Hempty Hins Hupd d. induction 1 as [|op d d' Hd IH Hrun]; [done|].
  apply run_cases in Hrun
    as [->|[(t & data & u & H)|(t & ns & rid & u & H)]]; eauto.
Qed.

(** The ids of a table are 1, 2, 3, ... in the order of the rows, without
    a gap: an insert that was refused has used no id, and no id is ever
    freed.  The recorded largest id is the number of rows. *)
Theorem ids_are_consecutive (d : db) (t : table) :
  reachable d →
  rowids t d = seqZ 1 (Z.of_nat (length (rows (get_table t d))))
  ∧ seq (get_table t d) = Z.of_nat (length (rows (get_table t d))).
Proof.
  intros Hd. revert t. induction Hd using reachable_store_ind.
  - intros t. by destruct t.
  - intros t'. rename H into Hex, Hd into Hreach.
    apply reachable_wf in Hreach. destruct (Hreach t) as [_ Hids Hseq _].
    apply execute_insert_ok in Hex
      as (vs & rowid & cells & _ & _ & Hid & _ & _ & ->).
    destruct (decide (t = t')) as [<-|Hne];
      [|unfold rowids; rewrite get_set_table_ne by done; apply IHHd].
    destruct (IHHd t) as [Hrows Hn].
    apply new_rowid_Some in Hid as [_ ->].
    assert (largest_rowid (rows (get_table t d)) ≤ seq (get_table t d)) as Hle.
    { apply largest_rowid_le; [lia|].
      eapply Forall_impl; [exact Hids|]. simpl. lia. }
    unfold rowids in *. rewrite get_set_table. simpl.
    rewrite fmap_app, length_app, Hrows. simpl.
    rewrite Nat2Z.inj_add, seqZ_app by lia. split; [|lia].
    f_equal. rewrite seqZ_cons, seqZ_nil by lia. f_equal. lia.
  - intros t'. rename H into Hex.
    apply execute_update_status_ok in Hex
      as (i & col & v' & k & rs & _ & _ & Hrs & ->).
    destruct (decide (t = t')) as [<-|Hne];
      [|unfold rowids; rewrite get_set_table_ne by done; apply IHHd].
    destruct (IHHd t) as [Hrows Hn].
    pose proof (update_rows_rowids _ _ _ _ _ _ Hrs) as Hfst.
    unfold rowids in *. rewrite get_set_table. simpl.
    assert (length rs = length (rows (get_table t d))) as ->.
    { by rewrite <-(length_fmap fst rs), Hfst, length_fmap. }
    by rewrite Hfst.
Qed.

Lemma ids_are_consecutive_witness :
  ∃ d,
    reachable d
    ∧ length (rows (get_table orders d)) = 2%nat
    ∧ rowids orders d = seqZ 1 (Z.of_nat (length (rows (get_table orders d))))
    ∧ seq (get_table orders d) = Z.of_nat (length (rows (get_table orders d))).
Proof.
  destruct reachable_two_orders as (d & Hd & Hrows).
  exists d. split; [exact Hd|]. split.
  - apply (f_equal length) in Hrows. unfold fetchall in Hrows.
    by rewrite length_fmap in Hrows.
  - exact (ids_are_consecutive d orders Hd).
Defined.

Lemma any_violation_insert cols cells i col v :
  any_violation cols cells = false → cols !! i = Some col →
  violates col v = false →
  any_violation cols (<[i := v]> cells) = false.
Proof.
  revert cells i. induction cols as [|c cols IH]; intros [|w cells] [|i];
    simpl; try done.
  - intros Hv [= ->] Hc. apply orb_false_iff in Hv as [_ Hv].
    by rewrite Hc, Hv.
  - intros Hv Hi Hc. apply orb_false_iff in Hv as [Hw Hv].
    rewrite Hw. simpl. eauto.
Qed.

Lemma no_violation_lookup cols cells i col v :
  any_violation cols cells = false → cols !! i = Some col →
  cells !! i = Some v → violates col v = false.
Proof.
  revert cells i. induction cols as [|c cols IH]; intros [|w cells] [|i];
    simpl; try done.
  - intros Hv [= ->] [= ->]. by apply orb_false_iff in Hv as [? _].
  - intros Hv Hi Hc. apply orb_false_iff in Hv as [_ Hv]. eauto.
Qed.

Lemma update_rows_no_violation cols i col v k (rs rs' : list row) :
  cols !! i = Some col →
  update_rows i col v k rs = Some (Ok rs') →
  Forall (λ r : row, any_violation cols r.2 = false) rs →
  Forall (λ r : row, any_violation cols r.2 = false) rs'.
Proof.
  intros Hi Hrs%update_rows_ok Hall.
  induction Hrs as [|r r' ? ? [_ Hr] _ IH]; [constructor|].
  apply Forall_cons in Hall as [Hr0 Hall]. constructor; [|auto].
  destruct Hr as [->|(_ & w & _ & Hw & ->)]; [done|].
  by eapply any_violation_insert.
Qed.

(** The rows of a reachable store passed the constraints of their table. *)
Lemma reachable_no_violation d :
  reachable d →
  ∀ t, Forall (λ r : row, any_violation (schema t) r.2 = false)
         (rows (get_table t d)).
Proof.
  induction 1 using reachable_store_ind; intros t'.
  - destruct t'; constructor.
  - rename H0 into Hex.
    apply execute_insert_ok in Hex
      as (vs & rowid & cells & _ & _ & _ & _ & Hviol & ->).
    destruct (decide (t = t')) as [<-|Hne];
      [|by rewrite get_set_table_ne].
    rewrite get_set_table. simpl. apply Forall_app. split; [done|].
    by constructor.
  - rename H0 into Hex.
    apply execute_update_status_ok in Hex
      as (i & col & v' & k & rs & Hcol & _ & Hrs & ->).
    destruct (decide (t = t')) as [<-|Hne];
      [|by rewrite get_set_table_ne].
    rewrite get_set_table. simpl.
    apply list_find_Some in Hcol as (Hi & _ & _).
    by eapply update_rows_no_violation.
Qed.

Lemma schema_not_null t : Forall (λ c, col_not_null c = true) (schema t).
Proof. destruct t; repeat constructor. Qed.

(** Whatever was inserted and updated, by the forms or by direct calls: no
    fetched field is [None], and the status of every fetched order is
    ['Pending'] or ['Completed']. *)
Theorem stored_rows_satisfy_constraints (d : db) (t : table) (r : list pyval) :
  reachable d →
  r ∈ df_rows (fetch_data t d) →
  (PyNone ∉ r)
  ∧ (t = orders →
     r !! 3%nat = Some (PyStr (str "Pending"))
     ∨ r !! 3%nat = Some (PyStr (str "Completed"))).
Proof.
  intros Hd Hr. simpl in Hr. unfold fetchall in Hr.
  apply list_elem_of_fmap in Hr as ([rowid cells] & -> & Hr).
  pose proof (proj1 (Forall_forall _ _) (reachable_no_violation d Hd t) _ Hr)
    as Hviol.
  apply reachable_wf in Hd. destruct (Hd t) as [_ _ _ Harity].
  pose proof (proj1 (Forall_forall _ _) Harity _ Hr) as Hlen.
  simpl in Hviol, Hlen. split.
  - intros [[=]|Hin]%elem_of_cons.
    apply list_elem_of_fmap in Hin as (v & Hv & Hin).
    apply list_elem_of_lookup in Hin as [i Hi].
    destruct (schema t !! i) as [col|] eqn:Hcol.
    + pose proof (no_violation_lookup _ _ _ _ _ Hviol Hcol Hi) as Hc.
      pose proof (proj1 (Forall_forall _ _) (schema_not_null t) col
                    (list_elem_of_lookup_2 _ _ _ Hcol)) as Hnn.
      unfold violates in Hc. rewrite Hnn in Hc. by destruct v.
    + apply lookup_ge_None in Hcol. apply lookup_lt_Some in Hi. simpl in Hi. lia.
  - intros ->. simpl in Hlen.
    destruct cells as [|c0 [|c1 [|c2 [|c3 [|]]]]]; simplify_eq/=.
    do 2 (apply orb_false_iff in Hviol as [_ Hviol]).
    apply orb_false_iff in Hviol as [Hc _].
    destruct c2 as [|z|f|s]; try done.
    apply status_accepted in Hc as [->| ->]; auto.
Qed.

Lemma stored_rows_satisfy_constraints_witness :
  let r := [PyInt 1; PyStr (str "Gadget"); PyInt 2; PyStr (str "Pending");
            PyStr (str "2024-02-01")] in
  reachable one_order
  ∧ r ∈ df_rows (fetch_data orders one_order)
  ∧ (PyNone ∉ r)
  ∧ (orders = orders →
     r !! 3%nat = Some (PyStr (str "Pending"))
     ∨ r !! 3%nat = Some (PyStr (str "Completed"))).
Proof.
  set (r := [PyInt 1; PyStr (str "Gadget"); PyInt 2; PyStr (str "Pending");
             PyStr (str "2024-02-01")]).
  assert (r ∈ df_rows (fetch_data orders one_order)) as Hr by (by left).
  split; [exact reachable_one_order|]. split; [exact Hr|].
  exact (stored_rows_satisfy_constraints one_order orders r
           reachable_one_order Hr).
Defined.

(** ** The form handlers *)

(** [bind_all] raises what the first value that is not bound raises. *)
Lemma bind_all_raise params e :
  bind_all params = Raise e → ∃ p, p ∈ params ∧ bind p = Raise e.
Proof.
  induction params as [|p ps IH]; simpl; [done|].
  destruct (bind p) as [v|e'] eqn:Hp.
  - destruct (bind_all ps) as [vs|e'']; [done|]. intros [= ->].
    destruct IH as (p' & Hin & Hb); [done|]. exists p'. split; [by right|done].
  - intros [= ->]. exists p. split; [by left|done].
Qed.

(** What [add_record] raises: the refusal of a constraint, the error of a
    statement that cannot run, or what the binding of a value raises. *)
Lemma add_record_raise_cases t data d e d' :
  add_record t data d = Some (Raise e, d') →
  e = IntegrityError ∨ e = OperationalError ∨ bind_all data = Raise e.
Proof.
  unfold add_record, execute_insert. intros H.
  destruct (negb _); [simplify_eq/=; tauto|].
  destruct (bind_all data) as [vs|e'] eqn:Hb; [|simplify_eq/=; tauto].
  destruct (new_rowid _); [|simplify_eq/=; tauto].
  destruct (store_values _ vs); [|done]. simpl in H.
  destruct (any_violation _ _); simplify_eq/=; tauto.
Qed.

(** For the tuple of a form, what the binding raises is the
    [OverflowError] of the quantity or the [UnicodeEncodeError] of one of
    its texts. *)
Lemma bind_all_form_raise_inv (f : form) (e : exn) :
  bind_all (data_of f) = Raise e →
  e = OverflowError
  ∨ ∃ s start stop,
      s ∈ texts_of f ∧ find_surrogates 0 s = Some (start, stop)
      ∧ e = UnicodeEncodeError s start stop.
Proof.
  intros (p & Hin & Hb)%bind_all_raise.
  assert (∀ s, s ∈ texts_of f → bind (PyStr s) = Raise e →
    ∃ s start stop,
      s ∈ texts_of f ∧ find_surrogates 0 s = Some (start, stop)
      ∧ e = UnicodeEncodeError s start stop) as Htext.
  { intros s Hs Hbs. simpl in Hbs.
    destruct (find_surrogates 0 s) as [[start stop]|] eqn:Hf; [|done].
    injection Hbs as <-. by exists s, start, stop. }
  destruct f as [n p' q v dt|n p' q v dt|n q v dt]; simpl in Hin;
    repeat (apply elem_of_cons in Hin as [->|Hin]);
    try (by apply elem_of_nil in Hin);
    try (simpl in Hb; done);
    try (simpl in Hb; destruct (_ && _); simplify_eq; by left);
    (right; eapply Htext; [|exact Hb]; simpl;
     eauto using list_elem_of_here, list_elem_of_further).
Qed.

(** An error message of a handler: the [ValueError] of [validate_input] at
    an argument that line 76 refuses, or, when every argument passes, the
    [UnicodeEncodeError] that the binding of a text raises. *)
Lemma submit_error_cases (f : form) (d d' : db) (msg : string) :
  submit_form f d = Some (Error msg, d') →
  d' = d
  ∧ ((∃ field value,
        (field, value) ∈ kwargs_of f ∧ is_empty_value value = true
        ∧ msg = cannot_be_empty field)
     ∨ validate_input (kwargs_of f) = Ok PyNone
       ∧ ∃ s start stop,
           s ∈ texts_of f ∧ find_surrogates 0 s = Some (start, stop)
           ∧ msg = surrogates_not_allowed s start stop).
Proof.
  destruct (submit_form_unfold f d) as [done' ->]. unfold submit.
  destruct (validate_input (kwargs_of f)) as [v|e] eqn:Hval.
  - destruct (add_record _ _ d) as [[[v'|e] d0]|] eqn:Hadd; simpl; try done.
    intros Hmsg. pose proof (add_record_raise _ _ _ _ _ Hadd) as ->.
    split; [by simplify_eq|]. right.
    split; [by rewrite (validate_input_ok_none _ _ Hval)|].
    apply add_record_raise_cases in Hadd as [->|[->|Hb]]; try done.
    apply bind_all_form_raise_inv in Hb
      as [->|(s & start & stop & Hs & Hf & ->)]; [done|].
    simpl in Hmsg. injection Hmsg as <-. by exists s, start, stop.
  - apply validate_input_raise_inv in Hval
      as (before & field & value & after & Hk & _ & Hv & ->).
    intros [= <- <-]. split; [done|]. left. exists field, value.
    split_and!; [|done|done]. rewrite Hk. apply elem_of_app. right. by left.
Qed.

(** The arguments of the handlers are the required texts. *)
Lemma rejected_kwarg_blank (f : form) (field : string) (value : pyval) :
  (field, value) ∈ kwargs_of f → is_empty_value value = true →
  ∃ s, s ∈ required_text f ∧ blank s.
Proof.
  intros Hin Hv.
  destruct f as [n p q v dt|n p q c dt|n q st dt]; simpl in Hin;
    repeat (apply elem_of_cons in Hin as [[= -> ->]|Hin]);
    try (by apply elem_of_nil in Hin);
    apply is_empty_value_str in Hv; eexists; (split; [|exact Hv]);
    simpl; eauto using list_elem_of_here, list_elem_of_further.
Qed.

Lemma validate_form_ok (f : form) :
  (∀ s, s ∈ required_text f → ¬ blank s) →
  validate_input (kwargs_of f) = Ok PyNone.
Proof.
  intros Hs. apply validate_input_accepts.
  destruct f as [n p q v dt|n p q c dt|n q st dt]; simpl in *;
    repeat constructor; simpl; apply not_true_iff_false;
    rewrite is_empty_value_str; apply Hs;
    eauto using list_elem_of_here, list_elem_of_further.
Qed.

(** A blank required text makes [validate_input] raise. *)
Lemma validate_form_raises (f : form) (s : pystr) :
  s ∈ required_text f → blank s →
  ∃ field, validate_input (kwargs_of f) = Raise (ValueError (cannot_be_empty field)).
Proof.
  intros Hin Hb. apply is_empty_value_str in Hb.
  assert (∃ before field after,
    kwargs_of f = before ++ (field, PyStr s) :: after)
    as (before & field & after & Hk).
  { destruct f as [n p q v' dt|n p q c dt|n q st dt]; simpl in Hin;
      repeat (apply elem_of_cons in Hin as [->|Hin]);
      try (by apply elem_of_nil in Hin); simpl.
    - by exists [], "ProductName"%string, [("Vendor"%string, PyStr v')].
    - by exists [("ProductName"%string, PyStr n)], "Vendor"%string, [].
    - by exists [], "ProductName"%string, [("Customer"%string, PyStr c)].
    - by exists [("ProductName"%string, PyStr n)], "Customer"%string, [].
    - by exists [], "ProductName"%string, []. }
  destruct (validate_input_raises before field (PyStr s) after Hb)
    as (field' & Hval & _). rewrite <-Hk in Hval. eauto.
Qed.

(** The handlers show an error message for two reasons only.  Either a
    required text is blank: the message is the one of [validate_input] and
    names a field of line 109, 136 or 162.  Or no required text is blank and
    a text of the tuple holds a surrogate: [sqlite3] raises
    [UnicodeEncodeError], a [ValueError], when it binds the text, and the
    message is the one of the encoder.  In both cases nothing was written. *)
Theorem submit_error_causes (f : form) (d d' : db) (msg : string) :
  submit_form f d = Some (Error msg, d') →
  d' = d
  ∧ ((∃ s, s ∈ required_text f ∧ blank s)
     ∧ (∃ field, field ∈ (kwargs_of f).*1 ∧ msg = cannot_be_empty field)
     ∨ (∀ s, s ∈ required_text f → ¬ blank s)
       ∧ ∃ s start stop,
           s ∈ texts_of f ∧ ¬ encodable s
           ∧ find_surrogates 0 s = Some (start, stop)
           ∧ msg = surrogates_not_allowed s start stop).
Proof.
  intros (-> & [(field & value & Hin & Hv & ->)
               |(Hok & s & start & stop & Hs & Hf & ->)])%submit_error_cases.
  - split; [done|]. left. split.
    + by eapply rejected_kwarg_blank.
    + exists field. split; [|done].
      apply list_elem_of_fmap. by exists (field, value).
  - split; [done|]. right. split.
    + intros s' Hin Hb.
      destruct (validate_form_raises f s' Hin Hb) as [field Hr]. congruence.
    + exists s, start, stop. split_and!; try done.
      intros Henc%(find_surrogates_None 0). congruence.
Qed.

Lemma submit_error_causes_witness :
  let f := SaleForm (str "Widget") price_9_99 3 [] jan15 in
  submit_form f one_order = Some (Error "Customer cannot be empty!", one_order)
  ∧ one_order = one_order
  ∧ ((∃ s, s ∈ required_text f ∧ blank s)
     ∧ (∃ field,
          field ∈ (kwargs_of f).*1
          ∧ "Customer cannot be empty!"%string = cannot_be_empty field)
     ∨ (∀ s, s ∈ required_text f → ¬ blank s)
       ∧ ∃ s start stop,
           s ∈ texts_of f ∧ ¬ encodable s
           ∧ find_surrogates 0 s = Some (start, stop)
           ∧ "Customer cannot be empty!"%string
             = surrogates_not_allowed s start stop).
Proof.
  split; [reflexivity|].
  exact (submit_error_causes
           (SaleForm (str "Widget") price_9_99 3 [] jan15) one_order one_order
           "Customer cannot be empty!" eq_refl).
Defined.

(** The message of the encoder, for one surrogate and for a run of them. *)
Example submit_surrogate_text :
  submit_order [97%N; 56575%N] 2 (str "Pending") jan15 one_order
  = Some (Error "'utf-8' codec can't encode character '\udcff' in position 1: surrogates not allowed",
          one_order)
  ∧ submit_order [56320%N; 55296%N; 120%N; 57343%N] 2 (str "Pending") jan15
      one_order
    = Some (Error "'utf-8' codec can't encode characters in position 0-1: surrogates not allowed",
            one_order).
Proof. split; reflexivity. Qed.

(** The handlers catch [ValueError] only.  When the required texts are
    filled in, the values are bound (texts that UTF-8 encodes, a quantity
    within 64 bits) and a value breaks a constraint of the schema, the
    [IntegrityError] of the insert leaves the handler uncaught: no message
    of the form is shown, and nothing is written. *)
Theorem submit_constraint_violation_uncaught (f : form) (d : db) :
  (∀ s, s ∈ required_text f → ¬ blank s) →
  in_int64 (quantity_of f) →
  encodable_form f →
  has_room (get_table (table_of f) d) →
  ¬ valid_form f →
  submit_form f d = Some (Uncaught IntegrityError, d).
Proof.
  intros Hs Hq Henc Hroom Hf.
  destruct (submit_form_unfold f d) as [done' ->]. unfold submit.
  rewrite (validate_form_ok f Hs).
  by rewrite (add_record_form_violation f d Hq Henc Hroom Hf).
Qed.

Lemma submit_constraint_violation_uncaught_witness :
  let f := PurchaseForm (str "Widget") price_9_99 0 (str "Acme Co") jan15 in
  (∀ s, s ∈ required_text f → ¬ blank s)
  ∧ in_int64 (quantity_of f)
  ∧ encodable_form f
  ∧ has_room (get_table (table_of f) one_order)
  ∧ ¬ valid_form f
  ∧ submit_form f one_order = Some (Uncaught IntegrityError, one_order).
Proof.
  set (f := PurchaseForm (str "Widget") price_9_99 0 (str "Acme Co") jan15).
  assert (∀ s, s ∈ required_text f → ¬ blank s) as Hs.
  { intros s Hin Hb. apply is_empty_value_str in Hb.
    simpl in Hin. repeat (apply elem_of_cons in Hin as [->|Hin]); try done.
    by apply elem_of_nil in Hin. }
  assert (in_int64 (quantity_of f)) as Hq
    by (unfold in_int64, min_int64, max_int64; simpl; lia).
  assert (encodable_form f) as Henc by (repeat constructor).
  assert (has_room (get_table (table_of f) one_order)) as Hroom
    by (unfold has_room, max_int64; simpl; lia).
  assert (¬ valid_form f) as Hf.
  { intros (_ & Hpos & _). simpl in Hpos. lia. }
  split_and!; [exact Hs|exact Hq|exact Henc|exact Hroom|exact Hf|].
  exact (submit_constraint_violation_uncaught f one_order Hs Hq Henc Hroom Hf).
Defined.

Lemma submit_blank_error (f : form) (d : db) (s : pystr) :
  s ∈ required_text f → blank s →
  ∃ msg, submit_form f d = Some (Error msg, d).
Proof.
  intros Hin Hb. destruct (submit_form_unfold f d) as [done' ->].
  destruct (validate_form_raises f s Hin Hb) as [field Hval].
  eexists. by apply submit_raises.
Qed.

(** With values inside the bounds of the widgets (a price from 0.0, a
    quantity from 1, a status of the select box) and texts that UTF-8
    encodes, a submission is decided by the blanks alone: it succeeds, and
    [fetch_data] shows the new row last, exactly when no required text is
    blank; otherwise it shows the message of the validation. *)
Theorem submit_succeeds_iff_not_blank (f : form) (d : db) :
  valid_form f →
  encodable_form f →
  has_room (get_table (table_of f) d) →
  ((∀ s, s ∈ required_text f → ¬ blank s)
   ↔ ∃ done rowid d',
       submit_form f d = Some (Success done, d')
       ∧ df_rows (fetch_data (table_of f) d')
         = df_rows (fetch_data (table_of f) d) ++ [PyInt rowid :: fetched_of f])
  ∧ ((∃ s, s ∈ required_text f ∧ blank s)
     ↔ ∃ field, submit_form f d = Some (Error (cannot_be_empty field), d)).
Proof.
  intros Hf Henc Hroom. pose proof Hf as (Hq & _ & Hp & _).
  assert (∀ p, price_of f = Some p → is_nan p = false) as Hnan.
  { intros p Hpf. by destruct (stored_real_not_negative p (Hp p Hpf)). }
  split; split.
  - intros Hs. destruct (submit_form_unfold f d) as [done' Hsub].
    unfold submit in Hsub. rewrite (validate_form_ok f Hs) in Hsub.
    rewrite (add_record_form f d Hq Henc Hroom) in Hsub.
    rewrite (no_violation_of_valid_form f Hf) in Hsub. simpl in Hsub.
    eexists done', _, _. split; [exact Hsub|].
    unfold fetch_data, fetchall. simpl. rewrite get_set_table. simpl.
    rewrite fmap_app. simpl. by rewrite (fetched_of_stored f Hnan).
  - intros (done' & rowid & d' & Hsub & _) s Hin Hb.
    destruct (submit_blank_error f d s Hin Hb) as [msg Herr]. congruence.
  - intros (s & Hin & Hb). destruct (submit_form_unfold f d) as [done' ->].
    destruct (validate_form_raises f s Hin Hb) as [field Hval].
    exists field. by apply submit_raises.
  - intros [field Hsub].
    apply submit_error_cases in Hsub
      as (_ & [(field' & value & Hin & Hv & _)|(_ & s & start & stop & Hs & Hfs & _)]).
    + by eapply rejected_kwarg_blank.
    + apply (proj1 (Forall_forall _ _) Henc), (find_surrogates_None 0) in Hs.
      congruence.
Qed.

Lemma submit_succeeds_iff_not_blank_witness :
  let f := OrderForm (str "Gadget") 2 (str "Pending") (Date 2024 2 1) in
  valid_form f
  ∧ encodable_form f
  ∧ has_room (get_table (table_of f) one_order)
  ∧ ((∀ s, s ∈ required_text f → ¬ blank s)
     ↔ ∃ done rowid d',
         submit_form f one_order = Some (Success done, d')
         ∧ df_rows (fetch_data (table_of f) d')
           = df_rows (fetch_data (table_of f) one_order)
               ++ [PyInt rowid :: fetched_of f])
  ∧ ((∃ s, s ∈ required_text f ∧ blank s)
     ↔ ∃ field,
         submit_form f one_order = Some (Error (cannot_be_empty field), one_order)).
Proof.
  set (f := OrderForm (str "Gadget") 2 (str "Pending") (Date 2024 2 1)).
  assert (valid_form f) as Hvalid.
  { unfold valid_form, in_int64, min_int64, max_int64. simpl.
    split_and!; [lia|lia|lia|done|]. intros s [= <-]. by left. }
  assert (encodable_form f) as Henc by (repeat constructor).
  assert (has_room (get_table (table_of f) one_order)) as Hroom
    by (unfold has_room, max_int64; simpl; lia).
  split; [exact Hvalid|]. split; [exact Henc|]. split; [exact Hroom|].
  exact (submit_succeeds_iff_not_blank f one_order Hvalid Henc Hroom).
Defined.

Example submit_order_ok :
  submit_order (str "Gadget") 2 (str "Pending") (Date 2024 2 1) empty_db
  = Some (Success "Order added successfully!", one_order).
Proof. reflexivity. Qed.

(** ** The orders page *)

Lemma is_pending_fetched (rowid : Z) (c0 c1 c2 c3 : sqlval) :
  equals_str (str "Pending") (py_of_sql c2) = is_pending (rowid, [c0; c1; c2; c3]).
Proof. by destruct c2. Qed.

(** The frame of the orders, filtered on its status column. *)
Lemma pending_rows_fetched (rs : list row) :
  Forall (λ r : row, length r.2 = 4%nat) rs →
  ∃ status,
    mapM (λ r : list pyval, r !! 3%nat)
      ((λ r : row, PyInt r.1 :: (py_of_sql <$> r.2)) <$> rs) = Some status
    ∧ select_rows ((λ r : row, PyInt r.1 :: (py_of_sql <$> r.2)) <$> rs)
        (equals_str (str "Pending") <$> status)
      = (λ r : row, PyInt r.1 :: (py_of_sql <$> r.2))
          <$> filter (λ r : row, is_pending r = true) rs.
Proof.
  induction 1 as [|[rowid cells] rs Hlen _ (status & Hst & Hsel)].
  - by exists [].
  - simpl in Hlen. destruct cells as [|c0 [|c1 [|c2 [|c3 [|]]]]]; try done.
    exists (py_of_sql c2 :: status). split.
    + rewrite fmap_cons. simpl. rewrite Hst. done.
    + rewrite !fmap_cons. simpl select_rows.
      rewrite (is_pending_fetched rowid c0 c1 c2 c3).
      destruct (is_pending (rowid, [c0; c1; c2; c3])) eqn:Hp.
      * rewrite filter_cons_True by done. rewrite fmap_cons. by f_equal.
      * rewrite filter_cons_False by congruence. done.
Qed.

Lemma id_column_fetched (rs : list row) :
  mapM (λ r : list pyval, r !! 0%nat)
    ((λ r : row, PyInt r.1 :: (py_of_sql <$> r.2)) <$> rs)
  = Some (PyInt <$> rs.*1).
Proof.
  induction rs as [|r rs IH]; [done|].
  rewrite !fmap_cons. simpl. by rewrite IH.
Qed.

Lemma get_column_status rs :
  get_column "status" (Frame (description orders) rs)
  = mapM (λ r : list pyval, r !! 3%nat) rs.
Proof. reflexivity. Qed.

Lemma get_column_id rs :
  get_column "id" (Frame (description orders) rs)
  = mapM (λ r : list pyval, r !! 0%nat) rs.
Proof. reflexivity. Qed.

Lemma df_empty_fetched (rs : list row) :
  df_empty (Frame (description orders)
              ((λ r : row, PyInt r.1 :: (py_of_sql <$> r.2)) <$> rs))
  = match rs with [] => true | _ => false end.
Proof. by destruct rs. Qed.

Lemma update_section_wf (d : db) :
  wf_db d →
  update_section d
  = Some match rows (get_table orders d) with
         | [] => NoOrdersFound
         | _ =>
             match pending_ids d with
             | [] => NoPendingOrders
             | ids => SelectOrder (PyInt <$> ids)
             end
         end.
Proof.
  intros Hd. destruct (Hd orders) as [_ _ _ Harity].
  unfold update_section, pending_ids, pending_orders, fetch_data, fetchall.
  revert Harity. generalize (rows (get_table orders d)). intros rs Harity.
  rewrite df_empty_fetched, get_column_status.
  destruct (pending_rows_fetched rs Harity) as (status & Hst & Hsel).
  cbn [df_rows df_columns]. rewrite Hst. cbn [mbind option_bind].
  rewrite Hsel, df_empty_fetched, get_column_id, id_column_fetched.
  destruct rs as [|r rs]; [done|].
  by destruct (filter _ (r :: rs)).
Qed.

Lemma elem_of_pending_ids (d : db) (id : Z) :
  wf_db d →
  id ∈ pending_ids d
  ↔ ∃ r, r ∈ df_rows (fetch_data orders d) ∧ id_of r = Some id
         ∧ r !! 3%nat = Some (PyStr (str "Pending")).
Proof.
  intros Hd. destruct (Hd orders) as [_ _ _ Harity].
  unfold pending_ids. simpl. unfold fetchall. split.
  - intros ([rowid cells] & -> & [Hp Hr]%list_elem_of_filter)%list_elem_of_fmap.
    exists (PyInt rowid :: (py_of_sql <$> cells)). split_and!; [|done|].
    + apply list_elem_of_fmap. by exists (rowid, cells).
    + pose proof (proj1 (Forall_forall _ _) Harity _ Hr) as Hlen.
      simpl in Hlen. destruct cells as [|c0 [|c1 [|c2 [|c3 [|]]]]]; try done.
      unfold is_pending in Hp. simpl in Hp. destruct c2; try done.
      apply bool_decide_eq_true in Hp as ->. done.
  - intros (r & ([rowid cells] & -> & Hr)%list_elem_of_fmap & [= ->] & Hs).
    apply list_elem_of_fmap. exists (id, cells). split; [done|].
    apply list_elem_of_filter. split; [|done].
    pose proof (proj1 (Forall_forall _ _) Harity _ Hr) as Hlen.
    simpl in Hlen. destruct cells as [|c0 [|c1 [|c2 [|c3 [|]]]]]; try done.
    simpl in Hs. unfold is_pending. simpl. destruct c2; simplify_eq/=. done.
Qed.

(** The select box of the orders page offers the ids of the orders whose
    fetched status is ['Pending'], all of them and in the order of the rows;
    without orders, or without a pending order, the page shows one of its
    two messages and no button. *)
Theorem update_section_offers_pending (d : db) :
  reachable d →
  update_section d
  = Some match df_rows (fetch_data orders d) with
         | [] => NoOrdersFound
         | _ =>
             match pending_ids d with
             | [] => NoPendingOrders
             | ids => SelectOrder (PyInt <$> ids)
             end
         end
  ∧ ∀ id,
      id ∈ pending_ids d
      ↔ ∃ r, r ∈ df_rows (fetch_data orders d) ∧ id_of r = Some id
             ∧ r !! 3%nat = Some (PyStr (str "Pending")).
Proof.
  intros Hd%reachable_wf. split.
  - rewrite (update_section_wf d Hd). unfold fetch_data, fetchall.
    cbn [df_rows]. by destruct (rows (get_table orders d)).
  - intros id. by apply elem_of_pending_ids.
Qed.

Lemma update_section_offers_pending_witness :
  ∃ d,
    reachable d
    ∧ update_section d = Some (SelectOrder [PyInt 2])
    ∧ update_section d
      = Some match df_rows (fetch_data orders d) with
             | [] => NoOrdersFound
             | _ =>
                 match pending_ids d with
                 | [] => NoPendingOrders
                 | ids => SelectOrder (PyInt <$> ids)
                 end
             end
    ∧ ∀ id,
        id ∈ pending_ids d
        ↔ ∃ r, r ∈ df_rows (fetch_data orders d) ∧ id_of r = Some id
               ∧ r !! 3%nat = Some (PyStr (str "Pending")).
Proof.
  pose proof (reachable_run (AddRecord orders gadget_order) _ _
                reachable_empty eq_refl) as H1.
  pose proof (reachable_run (AddRecord orders gadget_order) _ _ H1 eq_refl)
    as H2.
  pose proof (reachable_run
                (UpdateRecordStatus orders (PyInt 1) (PyStr (str "Completed")))
                _ _ H2 eq_refl) as H3.
  eexists. split; [exact H3|]. split; [reflexivity|].
  exact (update_section_offers_pending _ H3).
Defined.

Example update_section_empty : update_section empty_db = Some NoOrdersFound.
Proof. reflexivity. Qed.

(** The click, in terms of the pending ids. *)
Lemma mark_as_completed_wf (d : db) (choice : nat) :
  wf_db d →
  mark_as_completed choice d
  = id ← pending_ids d !! choice;
    '(r, d') ← update_record_status orders (PyInt id) (PyStr (str "Completed")) d;
    match r with
    | Ok _ => Some (Success "Order marked as completed!", d')
    | Raise e => Some (Uncaught e, d')
    end.
Proof.
  intros Hd. unfold mark_as_completed. rewrite (update_section_wf d Hd).
  cbn [mbind option_bind].
  destruct (rows (get_table orders d)) as [|r rs] eqn:Hrows.
  - unfold pending_ids. by rewrite Hrows.
  - destruct (pending_ids d) as [|z ids]; [done|].
    rewrite list_lookup_fmap. by destruct ((z :: ids) !! choice).
Qed.

Lemma pending_ids_rowids (d : db) (id : Z) :
  id ∈ pending_ids d → id ∈ rowids orders d.
Proof.
  unfold pending_ids, rowids.
  intros (r & -> & [_ Hr]%list_elem_of_filter)%list_elem_of_fmap.
  apply list_elem_of_fmap. by exists r.
Qed.

Lemma wf_rowid_in_int64 (d : db) (t : table) (id : Z) :
  wf_db d → id ∈ rowids t d → in_int64 id.
Proof.
  intros Hd (r & -> & Hr)%list_elem_of_fmap.
  destruct (Hd t) as [_ Hids Hseq _].
  apply (proj1 (Forall_forall _ _) Hids) in Hr.
  unfold in_int64, min_int64, max_int64 in *. lia.
Qed.

(** Completing an order takes it, and only it, off the pending ids. *)
Lemma pending_ids_completed (d : db) (id : Z) :
  wf_db d →
  pending_ids (with_status id (str "Completed") d)
  = filter (λ z, z ≠ id) (pending_ids d).
Proof.
  intros Hd. destruct (Hd orders) as [_ _ _ Harity].
  unfold pending_ids. rewrite with_status_rows.
  revert Harity. generalize (rows (get_table orders d)).
  induction 1 as [|[rowid cells] rs Hlen _ IH]; [done|].
  simpl in Hlen. destruct cells as [|c0 [|c1 [|c2 [|c3 [|]]]]]; try done.
  rewrite fmap_cons. cbn beta iota zeta. cbn [fst snd].
  destruct (decide (id = rowid)) as [->|Hne].
  - rewrite bool_decide_eq_true_2 by done.
    rewrite (filter_cons_False _ (rowid, _)) by done.
    destruct (is_pending (rowid, [c0; c1; c2; c3])) eqn:Hp.
    + rewrite (filter_cons_True _ (rowid, [c0; c1; c2; c3])) by done.
      rewrite fmap_cons. cbn [fst]. rewrite filter_cons_False by tauto.
      apply IH.
    + rewrite (filter_cons_False _ (rowid, [c0; c1; c2; c3])) by congruence.
      apply IH.
  - rewrite bool_decide_eq_false_2 by done.
    destruct (is_pending (rowid, [c0; c1; c2; c3])) eqn:Hp.
    + rewrite !(filter_cons_True _ (rowid, [c0; c1; c2; c3])) by done.
      rewrite !fmap_cons. cbn [fst]. rewrite filter_cons_True by congruence.
      f_equal. apply IH.
    + rewrite !(filter_cons_False _ (rowid, [c0; c1; c2; c3])) by congruence.
      apply IH.
Qed.

(** A click on "Mark as Completed" with the select box at a pending order
    succeeds: that order, and no other, gets the status ['Completed'] and
    leaves the pending ids, and the other tables stay as they are.  There is
    no click for a choice outside the pending orders. *)
Theorem mark_as_completed_completes (d : db) (choice : nat) :
  reachable d →
  match pending_ids d !! choice with
  | None => mark_as_completed choice d = None
  | Some id =>
      ∃ d',
        mark_as_completed choice d
        = Some (Success "Order marked as completed!", d')
        ∧ df_rows (fetch_data orders d')
          = (λ r, if bool_decide (id_of r = Some id)
                  then <[3%nat := PyStr (str "Completed")]> r else r)
              <$> df_rows (fetch_data orders d)
        ∧ pending_ids d' = filter (λ z, z ≠ id) (pending_ids d)
        ∧ ∀ t, t ≠ orders → get_table t d' = get_table t d
  end.
Proof.
  intros Hd%reachable_wf. rewrite (mark_as_completed_wf d choice Hd).
  destruct (pending_ids d !! choice) as [id|] eqn:Hid; [|done].
  apply list_elem_of_lookup_2, pending_ids_rowids in Hid.
  pose proof (wf_rowid_in_int64 d orders id Hd Hid) as Hint.
  exists (with_status id (str "Completed") d). split_and!.
  - cbn [mbind option_bind].
    rewrite update_order_status_accepted
      by first [tauto|repeat constructor]. done.
  - simpl. unfold fetchall. rewrite with_status_rows.
    apply fetchall_update_status.
  - by apply pending_ids_completed.
  - intros t Hne. by apply with_status_other_table.
Qed.

Lemma mark_as_completed_completes_witness :
  reachable one_order
  ∧ pending_ids one_order !! 0%nat = Some 1
  ∧ match pending_ids one_order !! 0%nat with
    | None => mark_as_completed 0 one_order = None
    | Some id =>
        ∃ d',
          mark_as_completed 0 one_order
          = Some (Success "Order marked as completed!", d')
          ∧ df_rows (fetch_data orders d')
            = (λ r, if bool_decide (id_of r = Some id)
                    then <[3%nat := PyStr (str "Completed")]> r else r)
                <$> df_rows (fetch_data orders one_order)
          ∧ pending_ids d' = filter (λ z, z ≠ id) (pending_ids one_order)
          ∧ ∀ t, t ≠ orders → get_table t d' = get_table t one_order
    end.
Proof.
  split; [exact reachable_one_order|]. split; [reflexivity|].
  exact (mark_as_completed_completes one_order 0 reachable_one_order).
Defined.

Example mark_then_nothing_pending :
  (mark_as_completed 0 one_order ≫= λ '(_, d), update_section d)
  = Some NoPendingOrders.
Proof. reflexivity. Qed.

(** ** What the pages alone can do *)

(** A click is a call of [update_record_status] on the orders with the
    status ['Completed']. *)
Lemma mark_as_completed_update choice d fb d' :
  mark_as_completed choice d = Some (fb, d') →
  ∃ order_id r,
    update_record_status orders order_id (PyStr (str "Completed")) d
    = Some (r, d').
Proof.
  unfold mark_as_completed. intros H.
  destruct (update_section d) as [[| |options]|]; simplify_eq/=.
  destruct (options !! choice) as [order_id|]; simplify_eq/=.
  destruct (update_record_status _ _ _ d) as [[r d0]|] eqn:Hupd; simplify_eq/=.
  exists order_id, r. by destruct r; simplify_eq/=.
Qed.

Lemma ui_run_run a d d' : ui_run a d = Some d' → ∃ op, run op d = Some d'.
Proof.
  destruct a as [f|choice]; simpl.
  - intros H. by exists (SubmitForm f).
  - destruct (mark_as_completed choice d) as [[fb d0]|] eqn:Hm; intros [= <-].
    apply mark_as_completed_update in Hm as (order_id & r & Hupd).
    exists (UpdateRecordStatus orders order_id (PyStr (str "Completed"))).
    simpl. by rewrite Hupd.
Qed.

Lemma ui_reachable_reachable d : ui_reachable d → reachable d.
Proof.
  induction 1 as [|a d d' _ IH Hrun]; [apply reachable_empty|].
  apply ui_run_run in Hrun as [op Hop]. by eapply reachable_run.
Qed.

(** The pages have no way back from ['Completed']: whatever is submitted
    or clicked, an order that [fetch_data] shows as completed is shown
    afterwards at the same place and unchanged. *)
Theorem completed_stays_completed (a : ui_action) (d d' : db) (n : nat)
    (r : list pyval) :
  ui_run a d = Some d' →
  df_rows (fetch_data orders d) !! n = Some r →
  r !! 3%nat = Some (PyStr (str "Completed")) →
  df_rows (fetch_data orders d') !! n = Some r.
Proof.
  intros Hrun Hr Hs. unfold fetch_data, fetchall in *. cbn [df_rows] in *.
  rewrite list_lookup_fmap in Hr.
  destruct (rows (get_table orders d) !! n) as [[rowid cells]|] eqn:Hrow;
    [|done].
  injection Hr as <-. cbn [fst snd] in *.
  change ((py_of_sql <$> cells) !! 2%nat = Some (PyStr (str "Completed"))) in Hs.
  rewrite list_lookup_fmap in Hs.
  destruct (cells !! 2%nat) as [c2|] eqn:Hc2; [|done].
  destruct c2 as [|z|fl|s]; try done. injection Hs as ->.
  assert (∀ t data r0 d0, add_record t data d = Some (r0, d0) →
    ((λ r : row, PyInt r.1 :: (py_of_sql <$> r.2))
       <$> rows (get_table orders d0)) !! n
    = Some (PyInt rowid :: (py_of_sql <$> cells))) as Hadd.
  { intros t data r0 d0 H0. rewrite list_lookup_fmap.
    pose proof (add_record_frame _ _ _ _ _ orders H0) as Hpre.
    by rewrite (prefix_lookup_Some _ _ _ _ Hrow Hpre). }
  destruct a as [f|choice]; simpl in Hrun.
  - destruct (submit_form f d) as [[fb d0]|] eqn:Hsub; simplify_eq/=.
    apply submit_form_store in Hsub as [->|[r0 H0]]; [|eauto].
    by rewrite list_lookup_fmap, Hrow.
  - destruct (mark_as_completed choice d) as [[fb d0]|] eqn:Hm; simplify_eq/=.
    apply mark_as_completed_update in Hm as (order_id & [v|e] & Hupd);
      [|apply update_record_status_raise in Hupd as ->;
        by rewrite list_lookup_fmap, Hrow].
    apply update_record_status_ok in Hupd as (_ & u & Hex).
    apply execute_update_status_ok in Hex
      as (i & col & v' & k & rs & Hcol & Hbind & Hrs & ->).
    rewrite status_column in Hcol. injection Hcol as <- <-.
    apply bind_all_pair in Hbind as [[= <-] _].
    rewrite ?get_set_table. simpl. rewrite list_lookup_fmap.
    apply update_rows_ok in Hrs.
    destruct (Forall2_lookup_l _ _ _ _ _ Hrs Hrow)
      as ([rowid' cells'] & -> & Hid & Hcells).
    simpl in Hid, Hcells. subst rowid'. simpl.
    destruct Hcells as [[= ->]|(_ & w & [= <-] & _ & ->)]; [done|].
    by rewrite list_insert_id.
Qed.

Lemma completed_stays_completed_witness :
  let r := [PyInt 1; PyStr (str "Gadget"); PyInt 2; PyStr (str "Completed");
            PyStr (str "2024-02-01")] in
  ui_run (MarkAsCompleted 0) two_orders = Some two_orders_completed
  ∧ df_rows (fetch_data orders two_orders) !! 0%nat = Some r
  ∧ r !! 3%nat = Some (PyStr (str "Completed"))
  ∧ df_rows (fetch_data orders two_orders_completed) !! 0%nat = Some r.
Proof.
  split; [reflexivity|]. split; [reflexivity|]. split; [reflexivity|].
  exact (completed_stays_completed (MarkAsCompleted 0) two_orders
           two_orders_completed 0 _ eq_refl eq_refl eq_refl).
Defined.

(** The direct call is not so restricted: it sets a completed order back
    to pending. *)
Example update_back_to_pending :
  (update_record_status orders (PyInt 1) (PyStr (str "Completed")) one_order
     ≫= λ '(_, d), update_record_status orders (PyInt 1) (PyStr (str "Pending")) d)
  = Some (Ok PyNone, one_order).
Proof. reflexivity. Qed.

(** The tuple of a form is bound only when its quantity fits 64 bits and
    its texts can be encoded. *)
Lemma bind_all_form_inv (f : form) vs :
  bind_all (data_of f) = Ok vs → in_int64 (quantity_of f) ∧ encodable_form f.
Proof.
  intros Hvs.
  destruct (decide (in_int64 (quantity_of f) ∧ encodable_form f)) as [|Hn];
    [done|].
  destruct (bind_all_form_raise f Hn) as (e & He & _). congruence.
Qed.

Lemma update_rows_completed_forms k (rs rs' : list row) :
  update_rows 2
    (Column "status" TEXT_t true (CheckIn [str "Pending"; str "Completed"]))
    (SqlText (str "Completed")) k rs = Some (Ok rs') →
  Forall (λ r : row,
            ∃ f, valid_form f ∧ table_of f = orders ∧ r.2 = stored_of f) rs →
  Forall (λ r : row,
            ∃ f, valid_form f ∧ table_of f = orders ∧ r.2 = stored_of f) rs'.
Proof.
  intros Hrs%update_rows_ok Hall.
  induction Hrs as [|r r' ? ? [_ Hr] _ IHrs]; [constructor|].
  apply Forall_cons in Hall as [(f & Hf & Ht & Hst) Hall].
  constructor; [|auto].
  destruct Hr as [->|(_ & w & [= <-] & _ & ->)]; [eauto|].
  destruct f as [n p q v0 dt|n p q c dt|n q st dt]; try done.
  exists (OrderForm n q (str "Completed") dt).
  split_and!; [|done|by rewrite Hst].
  destruct Hf as (Hq & Hpos & Hp & _). split_and!; try done.
  intros s [= <-]. by right.
Qed.

(** The rows of a store that the pages led to are tuples of forms with
    valid values. *)
Lemma ui_reachable_rows (d : db) :
  ui_reachable d →
  ∀ t, Forall (λ r : row,
                 ∃ f, valid_form f ∧ table_of f = t ∧ r.2 = stored_of f)
         (rows (get_table t d)).
Proof.
  induction 1 as [|a d d' Hd IH Hrun]; intros t'; [by destruct t'|].
  assert (∀ f r0, add_record (table_of f) (data_of f) d = Some (r0, d') →
    Forall (λ r : row,
              ∃ f, valid_form f ∧ table_of f = t' ∧ r.2 = stored_of f)
      (rows (get_table t' d'))) as Hadd.
  { intros f [v|e] H0; [|by apply add_record_raise in H0 as ->].
    apply add_record_ok in H0 as (_ & u & Hex).
    apply execute_insert_ok in Hex
      as (vs & rowid & cells & _ & Hvs & _ & Hcells & Hviol & ->).
    destruct (decide (table_of f = t')) as [<-|Hne];
      [|by rewrite get_set_table_ne].
    rewrite get_set_table. simpl. apply Forall_app. split; [done|].
    constructor; [|constructor]. simpl.
    pose proof (bind_all_form_inv f vs Hvs) as [Hq Henc].
    destruct (store_form f Hq Henc) as (vs' & Hvs' & Hst).
    rewrite Hvs in Hvs'. injection Hvs' as <-.
    rewrite Hcells in Hst. injection Hst as ->.
    exists f. split_and!; [|done|done]. by apply no_violation_valid_form. }
  destruct a as [f|choice]; simpl in Hrun.
  - destruct (submit_form f d) as [[fb d0]|] eqn:Hsub; simplify_eq/=.
    apply submit_form_store in Hsub as [->|[r0 H0]]; eauto.
  - destruct (mark_as_completed choice d) as [[fb d0]|] eqn:Hm; simplify_eq/=.
    apply mark_as_completed_update in Hm as (order_id & [v|e] & Hupd);
      [|by apply update_record_status_raise in Hupd as ->].
    apply update_record_status_ok in Hupd as (_ & u & Hex).
    apply execute_update_status_ok in Hex
      as (i & col & v' & k & rs & Hcol & Hbind & Hrs & ->).
    rewrite status_column in Hcol. injection Hcol as <- <-.
    apply bind_all_pair in Hbind as [[= <-] _].
    destruct (decide (t' = orders)) as [->|Hne];
      [|by rewrite get_set_table_ne].
    rewrite get_set_table. simpl.
    by eapply update_rows_completed_forms.
Qed.

(** Through the pages, only well-formed records get into the store: every
    fetched row is an id followed by the values of a valid form, a text
    where a text was entered, a price that is a float not below zero, a
    quantity that is an integer above zero, a status of the enumeration and
    the ISO text of the date. *)
Theorem ui_rows_are_valid_forms (d : db) (t : table) (r : list pyval) :
  ui_reachable d →
  r ∈ df_rows (fetch_data t d) →
  ∃ id f, valid_form f ∧ table_of f = t ∧ r = PyInt id :: fetched_of f.
Proof.
  intros Hd Hr. simpl in Hr. unfold fetchall in Hr.
  apply list_elem_of_fmap in Hr as ([rowid cells] & -> & Hr).
  pose proof (proj1 (Forall_forall _ _) (ui_reachable_rows d Hd t) _ Hr)
    as (f & Hf & Ht & Hst).
  simpl in Hst. subst cells. exists rowid, f. split_and!; [done|done|].
  simpl. f_equal. apply fetched_of_stored.
  intros p Hp. destruct Hf as (_ & _ & Hprice & _).
  by destruct (stored_real_not_negative p (Hprice p Hp)).
Qed.

Lemma ui_rows_are_valid_forms_witness :
  let r := [PyInt 1; PyStr (str "Gadget"); PyInt 2; PyStr (str "Pending");
            PyStr (str "2024-02-01")] in
  ui_reachable one_order
  ∧ r ∈ df_rows (fetch_data orders one_order)
  ∧ ∃ id f, valid_form f ∧ table_of f = orders ∧ r = PyInt id :: fetched_of f.
Proof.
  set (r := [PyInt 1; PyStr (str "Gadget"); PyInt 2; PyStr (str "Pending");
             PyStr (str "2024-02-01")]).
  assert (ui_reachable one_order) as Hd.
  { exact (ui_reachable_run
             (Submit (OrderForm (str "Gadget") 2 (str "Pending") (Date 2024 2 1)))
             empty_db one_order ui_reachable_empty eq_refl). }
  assert (r ∈ df_rows (fetch_data orders one_order)) as Hr by (by left).
  split; [exact Hd|]. split; [exact Hr|].
  exact (ui_rows_are_valid_forms one_order orders r Hd Hr).
Defined.

(** By a direct call the store takes what the constraints let through: a
    text as a quantity, for one. *)
Example direct_call_untyped :
  (add_record orders
     [PyStr (str "x"); PyStr (str "many"); PyStr (str "Pending"); PyDate jan15]
     empty_db ≫= λ '(r, _), Some r)
  = Some (Ok PyNone).
Proof. reflexivity. Qed.
